(** * recorderpwa: the recording controller, the playback engine and the
      encoding-format table, embedded as Rocq functions.

    Three modules follow the three source files they embed:
    - [AudioConst]  : src/hooks/audioConst.ts
    - [Recorder]    : the [useAudioRecorder] hook
    - [Player]      : src/hooks/audioPlayer/AudioPlayer.ts

    Platform objects (MediaRecorder, MediaStream, AudioContext, fetch) are
    modelled by the fields the code reads and writes; what the platform
    decides (whether a call rejects, which bytes a chunk carries, how far the
    audio clock moved) is an explicit input of the operation concerned.
    JavaScript numbers that carry time are rationals ([Q]). *)

From Stdlib Require Import List String Ascii Bool Arith ZArith QArith Qminmax Lia Lqa.
From Stdlib Require Import Strings.Byte.
Import ListNotations.

Set Implicit Arguments.

(** A thrown JavaScript value: an [Error] instance with its message, or
    anything else ([error instanceof Error] is false). *)
Inductive Thrown : Type :=
| ErrorObj (message : string)
| NonError.

(* ================================================================== *)
(** ** audioConst.ts *)
(* ================================================================== *)
Module AudioConst.

Open Scope string_scope.

Record AudioConfig : Type := {
  extension : string;
  estimatedSizeMBPerMinute : Q;
  priority : Z
}.

(** The object literal, as the list of its entries in insertion order
    (the order [Object.keys] enumerates string keys in). *)
Definition AUDIO_CONFIGS : list (string * AudioConfig) :=
  [ ("audio/webm;codecs=opus",
     {| extension := "webm"; estimatedSizeMBPerMinute := 3 # 4; priority := 1 |});
    ("audio/webm",
     {| extension := "webm"; estimatedSizeMBPerMinute := 1; priority := 2 |});
    ("audio/mp4",
     {| extension := "mp4"; estimatedSizeMBPerMinute := 3 # 2; priority := 3 |});
    ("audio/mpeg",
     {| extension := "mp3"; estimatedSizeMBPerMinute := 3 # 2; priority := 4 |}) ].

Definition keys (t : list (string * AudioConfig)) : list string := map fst t.

Fixpoint lookup (k : string) (t : list (string * AudioConfig)) : option AudioConfig :=
  match t with
  | [] => None
  | (k', c) :: t' => if String.eqb k k' then Some c else lookup k t'
  end.

(** [AUDIO_CONFIGS[k].priority]; the comparator only ever sees keys of the
    table, the default stands for an access that cannot happen there. *)
Definition priority_of (k : string) : Z :=
  match lookup k AUDIO_CONFIGS with
  | Some c => priority c
  | None => 0%Z
  end.

(** [Array.prototype.sort] with a comparator is a stable sort: elements the
    comparator ranks equal keep their order. *)
Fixpoint insert_by (cmp : string -> string -> Z) (x : string) (l : list string)
  : list string :=
  match l with
  | [] => [x]
  | y :: l' => if (cmp x y <=? 0)%Z then x :: y :: l' else y :: insert_by cmp x l'
  end.

Definition sort_by (cmp : string -> string -> Z) (l : list string) : list string :=
  fold_right (insert_by cmp) [] l.

Definition by_priority (a b : string) : Z := (priority_of a - priority_of b)%Z.

(** [getBestSupportedMimeType], with [MediaRecorder.isTypeSupported] as
    the parameter [isTypeSupported]. *)
Definition getBestSupportedMimeType (isTypeSupported : string -> bool) : string :=
  match find isTypeSupported (sort_by by_priority (keys AUDIO_CONFIGS)) with
  | Some type => type
  | None => "audio/mp4"
  end.

Definition listSupportedFileExtensions : list string :=
  map (fun key => match lookup key AUDIO_CONFIGS with
                  | Some c => extension c
                  | None => ""
                  end) (keys AUDIO_CONFIGS).

Definition isSupportedMimeType (mimeType : string) : bool :=
  existsb (String.eqb mimeType) (keys AUDIO_CONFIGS).

(** A function that may throw returns the value or the thrown error. *)
Inductive result (A : Type) : Type :=
| Ok (a : A)
| Throw (e : Thrown).
Arguments Ok {A} a.
Arguments Throw {A} e.

Definition getFileExtensionOrThrow (mimeType : string) : result string :=
  if negb (isSupportedMimeType mimeType)
  then Throw (ErrorObj ("Formato no soportado: " ++ mimeType))
  else match lookup mimeType AUDIO_CONFIGS with
       | Some c => Ok (extension c)
       | None => Throw (ErrorObj ("Formato no soportado: " ++ mimeType))
       end.

Definition getMimeTypeFromExtension (ext : string) : result string :=
  match find (fun key => match lookup key AUDIO_CONFIGS with
                         | Some c => String.eqb (extension c) ext
                         | None => false
                         end) (keys AUDIO_CONFIGS) with
  | Some mimeType => Ok mimeType
  | None => Throw (ErrorObj ("Formato no soportado: " ++ ext))
  end.

(** [s.replace(/[:.]/g, '-')] *)
Fixpoint replace_colon_dot (s : string) : string :=
  match s with
  | EmptyString => EmptyString
  | String c s' =>
      String (if (Ascii.eqb c ":" || Ascii.eqb c ".")%bool then "-"%char else c)
             (replace_colon_dot s')
  end.

(** [generateFileName]; [iso] is what [new Date().toISOString()] returned. *)
Definition generateFileName (iso : string) (mimeType : string) : result string :=
  match getFileExtensionOrThrow mimeType with
  | Throw e => Throw e
  | Ok ext => Ok ("recording-" ++ replace_colon_dot iso ++ "." ++ ext)
  end.

End AudioConst.

(* ================================================================== *)
(** ** The recording controller ([useAudioRecorder]) *)
(* ================================================================== *)
Module Recorder.

Open Scope string_scope.
Open Scope nat_scope.

Inductive Status : Type := idle | recording | paused | stopped.

(** A [Blob]: its bytes and its MIME type. *)
Record Blob : Type := { bytes : list byte; type : string }.

Definition size (b : Blob) : nat := List.length (bytes b).

(** [new Blob(parts, { type })]: the parts' bytes, in order. *)
Definition newBlob (parts : list Blob) (ty : string) : Blob :=
  {| bytes := List.concat (map bytes parts); type := ty |}.

Record AudioRecorderState : Type := {
  status : Status;
  recordingTime : nat;
  recordingBlob : option Blob;
  blobUrl : option nat;          (* an object URL, named by its number *)
  error : option string          (* the [Error]'s message *)
}.

Definition INITIAL_STATE : AudioRecorderState :=
  {| status := idle; recordingTime := 0; recordingBlob := None;
     blobUrl := None; error := None |}.

Definition RECORDER_OPTIONS_audioBitsPerSecond : N := 24000%N.
Definition RECORDER_OPTIONS_timeslice : N := 200%N.

(** [MediaRecorder.state] *)
Inductive RecordingState : Type := rs_inactive | rs_recording | rs_paused.

(** A [MediaStream]: its [active] flag and, per track, whether it is live. *)
Record MediaStream : Type := { active : bool; tracks : list bool }.

(** The variables the handlers of one [setupRecorder] call close over. *)
Record Closure : Type := { dataReceived : bool }.

(** A [MediaRecorder]. [listeners] is [Some] while the five handlers that
    [setupRecorder] registered are attached, with their closure. *)
Record MediaRecorder : Type := {
  rstate : RecordingState;
  stream : MediaStream;
  mimeType : string;
  audioBitsPerSecond : N;
  listeners : option Closure
}.

Record MediaDeviceInfo : Type := { deviceId : string; label : string }.

(** The hook instance: React state, the six refs, and a counter the model
    draws object URLs and interval ids from. *)
Record Hook : Type := {
  state : AudioRecorderState;
  devices : list MediaDeviceInfo;
  currentDeviceLabel : option string;
  mediaRecorderRef : option MediaRecorder;
  mediaStreamRef : option MediaStream;
  chunksRef : list Blob;
  timerIntervalRef : option nat;
  mimeTypeRef : option string;
  cleanupRef : bool;             (* [true]: holds a cleanup closure *)
  fresh : nat
}.

Definition initial : Hook :=
  {| state := INITIAL_STATE; devices := []; currentDeviceLabel := None;
     mediaRecorderRef := None; mediaStreamRef := None; chunksRef := [];
     timerIntervalRef := None; mimeTypeRef := None; cleanupRef := false;
     fresh := 0 |}.

(** *** Field updates *)

Definition with_state (v : AudioRecorderState) (h : Hook) : Hook :=
  {| state := v; devices := devices h; currentDeviceLabel := currentDeviceLabel h;
     mediaRecorderRef := mediaRecorderRef h; mediaStreamRef := mediaStreamRef h;
     chunksRef := chunksRef h; timerIntervalRef := timerIntervalRef h;
     mimeTypeRef := mimeTypeRef h; cleanupRef := cleanupRef h; fresh := fresh h |}.

Definition with_devices (v : list MediaDeviceInfo) (h : Hook) : Hook :=
  {| state := state h; devices := v; currentDeviceLabel := currentDeviceLabel h;
     mediaRecorderRef := mediaRecorderRef h; mediaStreamRef := mediaStreamRef h;
     chunksRef := chunksRef h; timerIntervalRef := timerIntervalRef h;
     mimeTypeRef := mimeTypeRef h; cleanupRef := cleanupRef h; fresh := fresh h |}.

Definition with_currentDeviceLabel (v : option string) (h : Hook) : Hook :=
  {| state := state h; devices := devices h; currentDeviceLabel := v;
     mediaRecorderRef := mediaRecorderRef h; mediaStreamRef := mediaStreamRef h;
     chunksRef := chunksRef h; timerIntervalRef := timerIntervalRef h;
     mimeTypeRef := mimeTypeRef h; cleanupRef := cleanupRef h; fresh := fresh h |}.

Definition with_mediaRecorderRef (v : option MediaRecorder) (h : Hook) : Hook :=
  {| state := state h; devices := devices h; currentDeviceLabel := currentDeviceLabel h;
     mediaRecorderRef := v; mediaStreamRef := mediaStreamRef h;
     chunksRef := chunksRef h; timerIntervalRef := timerIntervalRef h;
     mimeTypeRef := mimeTypeRef h; cleanupRef := cleanupRef h; fresh := fresh h |}.

Definition with_mediaStreamRef (v : option MediaStream) (h : Hook) : Hook :=
  {| state := state h; devices := devices h; currentDeviceLabel := currentDeviceLabel h;
     mediaRecorderRef := mediaRecorderRef h; mediaStreamRef := v;
     chunksRef := chunksRef h; timerIntervalRef := timerIntervalRef h;
     mimeTypeRef := mimeTypeRef h; cleanupRef := cleanupRef h; fresh := fresh h |}.

Definition with_chunksRef (v : list Blob) (h : Hook) : Hook :=
  {| state := state h; devices := devices h; currentDeviceLabel := currentDeviceLabel h;
     mediaRecorderRef := mediaRecorderRef h; mediaStreamRef := mediaStreamRef h;
     chunksRef := v; timerIntervalRef := timerIntervalRef h;
     mimeTypeRef := mimeTypeRef h; cleanupRef := cleanupRef h; fresh := fresh h |}.

Definition with_timerIntervalRef (v : option nat) (h : Hook) : Hook :=
  {| state := state h; devices := devices h; currentDeviceLabel := currentDeviceLabel h;
     mediaRecorderRef := mediaRecorderRef h; mediaStreamRef := mediaStreamRef h;
     chunksRef := chunksRef h; timerIntervalRef := v;
     mimeTypeRef := mimeTypeRef h; cleanupRef := cleanupRef h; fresh := fresh h |}.

Definition with_mimeTypeRef (v : option string) (h : Hook) : Hook :=
  {| state := state h; devices := devices h; currentDeviceLabel := currentDeviceLabel h;
     mediaRecorderRef := mediaRecorderRef h; mediaStreamRef := mediaStreamRef h;
     chunksRef := chunksRef h; timerIntervalRef := timerIntervalRef h;
     mimeTypeRef := v; cleanupRef := cleanupRef h; fresh := fresh h |}.

Definition with_cleanupRef (v : bool) (h : Hook) : Hook :=
  {| state := state h; devices := devices h; currentDeviceLabel := currentDeviceLabel h;
     mediaRecorderRef := mediaRecorderRef h; mediaStreamRef := mediaStreamRef h;
     chunksRef := chunksRef h; timerIntervalRef := timerIntervalRef h;
     mimeTypeRef := mimeTypeRef h; cleanupRef := v; fresh := fresh h |}.

Definition with_fresh (v : nat) (h : Hook) : Hook :=
  {| state := state h; devices := devices h; currentDeviceLabel := currentDeviceLabel h;
     mediaRecorderRef := mediaRecorderRef h; mediaStreamRef := mediaStreamRef h;
     chunksRef := chunksRef h; timerIntervalRef := timerIntervalRef h;
     mimeTypeRef := mimeTypeRef h; cleanupRef := cleanupRef h; fresh := v |}.

(** [setState(prev => ...)] *)
Definition setState (f : AudioRecorderState -> AudioRecorderState) (h : Hook) : Hook :=
  with_state (f (state h)) h.

Definition rec_with_rstate (v : RecordingState) (r : MediaRecorder) : MediaRecorder :=
  {| rstate := v; stream := stream r; mimeType := mimeType r;
     audioBitsPerSecond := audioBitsPerSecond r; listeners := listeners r |}.

Definition rec_with_stream (v : MediaStream) (r : MediaRecorder) : MediaRecorder :=
  {| rstate := rstate r; stream := v; mimeType := mimeType r;
     audioBitsPerSecond := audioBitsPerSecond r; listeners := listeners r |}.

Definition rec_with_listeners (v : option Closure) (r : MediaRecorder) : MediaRecorder :=
  {| rstate := rstate r; stream := stream r; mimeType := mimeType r;
     audioBitsPerSecond := audioBitsPerSecond r; listeners := v |}.

Definition is_inactive (s : RecordingState) : bool :=
  match s with rs_inactive => true | _ => false end.

Definition is_recording (s : RecordingState) : bool :=
  match s with rs_recording => true | _ => false end.

(** [mimeTypeRef.current!] as the [type] option of a Blob: [null] is
    turned into the string "null" by the Blob constructor. *)
Definition mimeTypeRef_current (h : Hook) : string :=
  match mimeTypeRef h with Some m => m | None => "null" end.

(** *** Timer *)

Definition _clearTimer (h : Hook) : Hook :=
  match timerIntervalRef h with
  | None => h
  | Some _ => with_timerIntervalRef None h
  end.

Definition _startTimer (h : Hook) : Hook :=
  let h := _clearTimer h in
  with_fresh (S (fresh h)) (with_timerIntervalRef (Some (fresh h)) h).

(** One firing of the interval callback. *)
Definition tick (h : Hook) : Hook :=
  match timerIntervalRef h with
  | None => h
  | Some _ =>
      setState (fun prev =>
        {| status := status prev; recordingTime := recordingTime prev + 1;
           recordingBlob := recordingBlob prev; blobUrl := blobUrl prev;
           error := error prev |}) h
  end.

(** *** Tracks *)

Definition stopTracks (s : MediaStream) : MediaStream :=
  {| active := false; tracks := map (fun _ => false) (tracks s) |}.

(** [_cleanTracks(recorder)] for the recorder the ref holds. The
    recorder's stream and [mediaStreamRef.current] are one object, so the
    stopped tracks show through both. *)
Definition _cleanTracks (h : Hook) : Hook :=
  match mediaRecorderRef h with
  | None => h
  | Some r =>
      with_mediaStreamRef (option_map stopTracks (mediaStreamRef h))
        (with_mediaRecorderRef (Some (rec_with_stream (stopTracks (stream r)) r)) h)
  end.

(** The function [setupRecorder] returns: the five listeners are removed. *)
Definition cleanup (h : Hook) : Hook :=
  with_mediaRecorderRef (option_map (rec_with_listeners None) (mediaRecorderRef h)) h.

(** *** reset, exported as [releaseResources] *)
Definition reset (h : Hook) : Hook :=
  let h :=
    match mediaRecorderRef h with
    | Some r =>
        let h := if negb (is_inactive (rstate r))
                 then with_mediaRecorderRef (Some (rec_with_rstate rs_inactive r)) h
                 else h in
        _cleanTracks h
    | None => h
    end in
  let h :=
    match mediaStreamRef h with
    | Some _ => with_mediaStreamRef (Some {| active := false; tracks := [] |}) h
    | None => h
    end in
  (* URL.revokeObjectURL(state.blobUrl): no field of the model changes *)
  let h := if cleanupRef h then with_cleanupRef false (cleanup h) else h in
  let h := with_mediaRecorderRef None h in
  let h := with_mediaStreamRef None h in
  let h := with_chunksRef [] h in
  let h := _clearTimer h in
  with_state INITIAL_STATE h.

Definition releaseResources : Hook -> Hook := reset.

Definition asError (e : Thrown) : string :=
  match e with
  | ErrorObj m => m
  | NonError => "Unknown recording error"
  end.

Definition _handleError (e : Thrown) (h : Hook) : Hook :=
  let h := reset h in
  setState (fun prev =>
    {| status := idle; recordingTime := recordingTime prev;
       recordingBlob := recordingBlob prev; blobUrl := blobUrl prev;
       error := Some (asError e) |}) h.

(** *** setupRecorder and its handlers *)

(** [setupRecorder(recorder)]: [let dataReceived = false] and the five
    [addEventListener] calls. *)
Definition setupRecorder (r : MediaRecorder) : MediaRecorder :=
  rec_with_listeners (Some {| dataReceived := false |}) r.

Definition handlePause (h : Hook) : Hook :=
  let h := _clearTimer h in
  let audioBlob := newBlob (chunksRef h) (mimeTypeRef_current h) in
  let url := fresh h in
  let h := with_fresh (S url) h in
  setState (fun prev =>
    {| status := paused; recordingTime := recordingTime prev;
       recordingBlob := Some audioBlob; blobUrl := Some url;
       error := error prev |}) h.

Definition handleResume (h : Hook) : Hook :=
  let h := _startTimer h in
  setState (fun prev =>
    {| status := recording; recordingTime := recordingTime prev;
       recordingBlob := recordingBlob prev; blobUrl := blobUrl prev;
       error := error prev |}) h.

(** [handleDataAvailable(e)], [data] being [e.data]. [r] is the recorder
    whose listener runs; its closure gets [dataReceived = true]. *)
Definition handleDataAvailable (data : Blob) (r : MediaRecorder) (h : Hook) : Hook :=
  if 0 <? size data then
    let h := with_mediaRecorderRef
               (Some (rec_with_listeners (Some {| dataReceived := true |}) r)) h in
    let chunk := newBlob [data] (mimeTypeRef_current h) in
    if 0 <? size chunk
    then with_chunksRef (chunksRef h ++ [chunk]) h
    else h
  else h.

(** [handleStop()], [c] being the closure of the listener that runs. The
    three [throw]s are caught by the handler's own [catch], which calls
    [_handleError]. *)
Definition handleStop (c : Closure) (h : Hook) : Hook :=
  if negb (dataReceived c) then
    _handleError (ErrorObj "No audio data was received during recording") h
  else if Nat.eqb (List.length (chunksRef h)) 0 then
    _handleError (ErrorObj "No audio data recorded") h
  else
    let audioBlob := newBlob (chunksRef h) (mimeTypeRef_current h) in
    if Nat.eqb (size audioBlob) 0 then
      _handleError (ErrorObj "Generated empty audio blob") h
    else
      let url := fresh h in
      let h := with_fresh (S url) h in
      let h := _clearTimer h in
      (* new Audio(url).play(): no field of the model changes *)
      let h := setState (fun prev =>
        {| status := stopped; recordingTime := recordingTime prev;
           recordingBlob := Some audioBlob; blobUrl := Some url;
           error := None |}) h in
      _cleanTracks h.

(** [handleError(error)]: an [ErrorEvent] is not an [Error] instance. *)
Definition handleError (h : Hook) : Hook := _handleError NonError h.

(** *** stopRecording, togglePauseResume *)

Definition stopRecording (h : Hook) : Hook :=
  match mediaRecorderRef h with
  | None => h
  | Some r =>
      if is_inactive (rstate r) then h
      else
        let h := _clearTimer h in
        (* mediaRecorderRef.current.stop() *)
        with_mediaRecorderRef (Some (rec_with_rstate rs_inactive r)) h
  end.

(** [togglePauseResume()]. [pause()] and [resume()] throw only on an inactive
    recorder, which the guard has excluded, so the [catch] is not entered. *)
Definition togglePauseResume (h : Hook) : Hook :=
  match mediaRecorderRef h with
  | None => h
  | Some r =>
      if is_inactive (rstate r) then h
      else
        match status (state h) with
        | paused =>
            (* recorder.resume() *)
            let h := with_mediaRecorderRef (Some (rec_with_rstate rs_recording r)) h in
            let h := _startTimer h in
            setState (fun prev =>
              {| status := recording; recordingTime := recordingTime prev;
                 recordingBlob := recordingBlob prev; blobUrl := blobUrl prev;
                 error := error prev |}) h
        | recording =>
            (* recorder.pause() *)
            let h := with_mediaRecorderRef (Some (rec_with_rstate rs_paused r)) h in
            let h := _clearTimer h in
            setState (fun prev =>
              {| status := paused; recordingTime := recordingTime prev;
                 recordingBlob := recordingBlob prev; blobUrl := blobUrl prev;
                 error := error prev |}) h
        | _ => h
        end
  end.

(** *** startRecording *)

(** What the platform does during one acquisition attempt: what
    [getUserMedia] settles with, and whether [recorder.start] throws. *)
Record Attempt : Type := {
  gum : Thrown + MediaStream;
  startThrows : option Thrown
}.

(** The body of one [try] block: it completes, or it throws. *)
Inductive Outcome : Type :=
| Done (h : Hook)
| Raised (e : Thrown) (h : Hook).

Definition deviceLabel (ds : list MediaDeviceInfo) : string :=
  match ds with
  | [] => "Default Microphone"
  | d :: _ => if String.eqb (label d) "" then "Default Microphone" else label d
  end.

(** [new MediaRecorder(stream, { mimeType, audioBitsPerSecond })]: a new
    recorder is inactive and has no listeners. *)
Definition newMediaRecorder (s : MediaStream) (m : string) : MediaRecorder :=
  {| rstate := rs_inactive; stream := s; mimeType := m;
     audioBitsPerSecond := RECORDER_OPTIONS_audioBitsPerSecond;
     listeners := None |}.

Definition attempt (isTypeSupported : string -> bool) (a : Attempt) (h : Hook)
  : Outcome :=
  let h := match mediaRecorderRef h with
           | Some r => if is_recording (rstate r) then stopRecording h else h
           | None => h
           end in
  let h := reset h in
  let h := with_currentDeviceLabel (Some (deviceLabel (devices h))) h in
  match gum a with
  | inl e => Raised e h
  | inr stream =>
      if negb (active stream) then
        Raised (ErrorObj "Obtained inactive media stream") h
      else
        let h := with_mediaStreamRef (Some stream) h in
        let mimeType := AudioConst.getBestSupportedMimeType isTypeSupported in
        if negb (isTypeSupported mimeType) then
          Raised (ErrorObj ("Mime type " ++ mimeType ++ " is not supported")) h
        else
          let h := with_mimeTypeRef (Some mimeType) h in
          let recorder := newMediaRecorder stream mimeType in
          if is_inactive (rstate recorder) then
            let recorder := setupRecorder recorder in
            let h := with_cleanupRef true h in
            let h := with_mediaRecorderRef (Some recorder) h in
            match startThrows a with
            | Some e => Raised e (cleanup h)
            | None =>
                (* recorder.start(RECORDER_OPTIONS.timeslice) *)
                let h := with_mediaRecorderRef
                           (Some (rec_with_rstate rs_recording recorder)) h in
                let h := _startTimer h in
                Done (setState (fun prev =>
                  {| status := recording; recordingTime := recordingTime prev;
                     recordingBlob := None; blobUrl := blobUrl prev;
                     error := None |}) h)
            end
          else Done h
  end.

(** What a call of [startRecording] does besides changing the hook: each
    acquisition attempt, and each wait before a retry. *)
Inductive Effect : Type :=
| Acquire
| Sleep (ms : nat).

(** [startRecording(retryCount)]. [attempts k] is what the platform does
    during the attempt made with [retryCount = k]. The recursion is the
    source's recursion; [fuel] bounds it for Rocq, and
    [startRecording_returns] shows three units are always enough. *)
Fixpoint startRecording_from (fuel : nat) (isTypeSupported : string -> bool)
    (attempts : nat -> Attempt) (retryCount : nat) (h : Hook)
  : option (list Effect * Hook) :=
  match fuel with
  | 0 => None
  | S fuel' =>
      match attempt isTypeSupported (attempts retryCount) h with
      | Done h' => Some ([Acquire], h')
      | Raised e h' =>
          if retryCount <? 2 then
            match startRecording_from fuel' isTypeSupported attempts (retryCount + 1) h' with
            | Some (tr, h'') => Some (Acquire :: Sleep 1000 :: tr, h'')
            | None => None
            end
          else Some ([Acquire], _handleError e h')
      end
  end.

(** [startRecording()], as the component calls it: [retryCount = 0]. *)
Definition startRecording (isTypeSupported : string -> bool)
    (attempts : nat -> Attempt) (h : Hook) : option (list Effect * Hook) :=
  startRecording_from 3 isTypeSupported attempts 0 h.

(** *** The controller as a state machine *)

(** What can happen to a hook instance: a call from the component, an event
    of the recorder the ref holds, a firing of the interval, the result of
    [enumerateDevices]. Each runs to completion before the next. *)
Inductive Event : Type :=
| CallStartRecording (attempts : nat -> Attempt)
| CallStopRecording
| CallTogglePauseResume
| CallReleaseResources
| OnDataAvailable (data : Blob)
| OnStop
| OnPause
| OnResume
| OnError
| OnTick
| OnDevices (ds : list MediaDeviceInfo).

(** An event of the recorder reaches a handler only while the listeners
    are attached. The [stop] event is fired once the recorder is inactive. *)
Definition dispatch (ev : Event) (h : Hook) : Hook :=
  match mediaRecorderRef h with
  | None => h
  | Some r =>
      match ev with
      | OnStop =>
          let r := rec_with_rstate rs_inactive r in
          let h := with_mediaRecorderRef (Some r) h in
          match listeners r with
          | Some c => handleStop c h
          | None => h
          end
      | OnDataAvailable data =>
          match listeners r with
          | Some _ => handleDataAvailable data r h
          | None => h
          end
      | OnPause => match listeners r with Some _ => handlePause h | None => h end
      | OnResume => match listeners r with Some _ => handleResume h | None => h end
      | OnError => match listeners r with Some _ => handleError h | None => h end
      | _ => h
      end
  end.

Definition step (isTypeSupported : string -> bool) (h : Hook) (ev : Event) : Hook :=
  match ev with
  | CallStartRecording attempts =>
      match startRecording isTypeSupported attempts h with
      | Some (_, h') => h'
      | None => h
      end
  | CallStopRecording => stopRecording h
  | CallTogglePauseResume => togglePauseResume h
  | CallReleaseResources => releaseResources h
  | OnTick => tick h
  | OnDevices ds => with_devices ds h
  | _ => dispatch ev h
  end.

Definition run (isTypeSupported : string -> bool) (h : Hook) (evs : list Event) : Hook :=
  fold_left (step isTypeSupported) evs h.

(** The events of a session between its start and its stop: deliveries,
    pause and resume requests, the recorder's pause and resume events, and
    ticks. *)
Definition in_session (ev : Event) : bool :=
  match ev with
  | OnDataAvailable _ | CallTogglePauseResume | OnPause | OnResume | OnTick => true
  | _ => false
  end.

Definition is_delivery (ev : Event) : bool :=
  match ev with
  | OnDataAvailable _ => true
  | _ => false
  end.

(** The chunks a list of events delivers, in order. *)
Fixpoint delivered (evs : list Event) : list Blob :=
  match evs with
  | [] => []
  | OnDataAvailable d :: evs' => d :: delivered evs'
  | _ :: evs' => delivered evs'
  end.

Definition nonEmpty (b : Blob) : bool := 0 <? size b.

Inductive reachable (isTypeSupported : string -> bool) : Hook -> Prop :=
| reach_initial : reachable isTypeSupported initial
| reach_step : forall h ev,
    reachable isTypeSupported h ->
    reachable isTypeSupported (step isTypeSupported h ev).

(** The hook in the middle of a session whose handler has been given the
    chunks [ds] so far: the listeners are attached, the non-empty chunks
    are in [chunksRef], each rewrapped with the session's MIME type [m], and
    the closure remembers whether any was non-empty. *)
Definition in_progress (m : string) (ds : list Blob) (h : Hook) : Prop :=
  mimeTypeRef h = Some m
  /\ chunksRef h = map (fun d => newBlob [d] m) (filter nonEmpty ds)
  /\ exists r, mediaRecorderRef h = Some r
               /\ listeners r = Some {| dataReceived := existsb nonEmpty ds |}.

(** *** Sample platforms and inputs, for the scenarios *)

Definition okStream : MediaStream := {| active := true; tracks := [true] |}.

(** An attempt in which the microphone is granted and the recorder starts. *)
Definition okAttempt : Attempt := {| gum := inr okStream; startThrows := None |}.

(** An attempt in which [getUserMedia] rejects. *)
Definition deniedAttempt : Attempt :=
  {| gum := inl (ErrorObj "Permission denied"); startThrows := None |}.

Definition allSupported (_ : string) : bool := true.

Definition noneSupported (_ : string) : bool := false.

(** A chunk of [n] zero bytes. *)
Definition chunk (n : nat) : Blob := {| bytes := repeat x00 n; type := "" |}.

End Recorder.

(* ================================================================== *)
(** ** The playback engine (AudioPlayer.ts) *)
(* ================================================================== *)
Module Player.

Open Scope string_scope.
Open Scope Q_scope.

(** The published snapshot, [AudioPlayerState]. *)
Record AudioPlayerState : Type := {
  s_isPlaying : bool;
  s_isReady : bool;
  s_currentTime : Q;
  s_duration : Q
}.

Record AudioPlayerInternalState : Type := {
  id : string;
  isPlaying : bool;
  isReady : bool;
  currentTime : Q;
  offset : Q;
  duration : Q;
  startTime : Q;
  error : option Thrown
}.

Inductive ErrorCode : Type := LOAD_ERROR | PLAYBACK_ERROR.

Record AudioPlayerError : Type := { message : string; code : ErrorCode }.

Inductive ContextState : Type := running | suspended | closed.

(** An [AudioContext]: its clock and its state. *)
Record AudioContext : Type := { ctx_currentTime : Q; ctx_state : ContextState }.

(** An [AudioBuffer]: its length in sample frames and its sample rate. *)
Record AudioBuffer : Type := { buf_length : N; buf_sampleRate : positive }.

(** [AudioBuffer.duration]: the length divided by the sample rate. *)
Definition buf_duration (b : AudioBuffer) : Q := Z.of_N (buf_length b) # buf_sampleRate b.

(** A source node; [started] is the offset [start(0, offset)] was given. *)
Record AudioBufferSourceNode : Type := { started : option Q }.

(** The engine object. The last three fields are not fields of the class:
    [notifications] counts the calls of [notify] (each calls every
    subscriber); [nextFrame] is the id the next [requestAnimationFrame]
    returns; [suspendedPauses] counts bodies of [pause()] that [dispose]
    started without awaiting and that still wait at their [await]. *)
Record AudioPlayer : Type := {
  state : AudioPlayerInternalState;
  context : option AudioContext;
  source : option AudioBufferSourceNode;
  buffer : option AudioBuffer;
  subscribers : list nat;
  lastSnapshot : option AudioPlayerState;
  stableSnapshot : AudioPlayerState;
  timeUpdateId : option nat;
  notifications : nat;
  nextFrame : nat;
  suspendedPauses : nat
}.

Definition defaultSnapshot : AudioPlayerState :=
  {| s_isPlaying := false; s_isReady := false; s_currentTime := 0; s_duration := 0 |}.

Definition defaultState (i : string) : AudioPlayerInternalState :=
  {| id := i; isPlaying := false; isReady := false; currentTime := 0;
     offset := 0; duration := 0; startTime := 0; error := None |}.

(** [new AudioPlayer()], the first instance. *)
Definition initial : AudioPlayer :=
  {| state := defaultState "player-1"; context := None; source := None;
     buffer := None; subscribers := []; lastSnapshot := None;
     stableSnapshot := defaultSnapshot; timeUpdateId := None;
     notifications := 0; nextFrame := 0; suspendedPauses := 0 |}.

(** *** Field updates *)

Definition with_state (v : AudioPlayerInternalState) (p : AudioPlayer) : AudioPlayer :=
  {| state := v; context := context p; source := source p; buffer := buffer p;
     subscribers := subscribers p; lastSnapshot := lastSnapshot p;
     stableSnapshot := stableSnapshot p; timeUpdateId := timeUpdateId p;
     notifications := notifications p; nextFrame := nextFrame p;
     suspendedPauses := suspendedPauses p |}.

Definition with_context (v : option AudioContext) (p : AudioPlayer) : AudioPlayer :=
  {| state := state p; context := v; source := source p; buffer := buffer p;
     subscribers := subscribers p; lastSnapshot := lastSnapshot p;
     stableSnapshot := stableSnapshot p; timeUpdateId := timeUpdateId p;
     notifications := notifications p; nextFrame := nextFrame p;
     suspendedPauses := suspendedPauses p |}.

Definition with_source (v : option AudioBufferSourceNode) (p : AudioPlayer) : AudioPlayer :=
  {| state := state p; context := context p; source := v; buffer := buffer p;
     subscribers := subscribers p; lastSnapshot := lastSnapshot p;
     stableSnapshot := stableSnapshot p; timeUpdateId := timeUpdateId p;
     notifications := notifications p; nextFrame := nextFrame p;
     suspendedPauses := suspendedPauses p |}.

Definition with_buffer (v : option AudioBuffer) (p : AudioPlayer) : AudioPlayer :=
  {| state := state p; context := context p; source := source p; buffer := v;
     subscribers := subscribers p; lastSnapshot := lastSnapshot p;
     stableSnapshot := stableSnapshot p; timeUpdateId := timeUpdateId p;
     notifications := notifications p; nextFrame := nextFrame p;
     suspendedPauses := suspendedPauses p |}.

Definition with_subscribers (v : list nat) (p : AudioPlayer) : AudioPlayer :=
  {| state := state p; context := context p; source := source p; buffer := buffer p;
     subscribers := v; lastSnapshot := lastSnapshot p;
     stableSnapshot := stableSnapshot p; timeUpdateId := timeUpdateId p;
     notifications := notifications p; nextFrame := nextFrame p;
     suspendedPauses := suspendedPauses p |}.

Definition with_lastSnapshot (v : option AudioPlayerState) (p : AudioPlayer) : AudioPlayer :=
  {| state := state p; context := context p; source := source p; buffer := buffer p;
     subscribers := subscribers p; lastSnapshot := v;
     stableSnapshot := stableSnapshot p; timeUpdateId := timeUpdateId p;
     notifications := notifications p; nextFrame := nextFrame p;
     suspendedPauses := suspendedPauses p |}.

Definition with_stableSnapshot (v : AudioPlayerState) (p : AudioPlayer) : AudioPlayer :=
  {| state := state p; context := context p; source := source p; buffer := buffer p;
     subscribers := subscribers p; lastSnapshot := lastSnapshot p;
     stableSnapshot := v; timeUpdateId := timeUpdateId p;
     notifications := notifications p; nextFrame := nextFrame p;
     suspendedPauses := suspendedPauses p |}.

Definition with_timeUpdateId (v : option nat) (p : AudioPlayer) : AudioPlayer :=
  {| state := state p; context := context p; source := source p; buffer := buffer p;
     subscribers := subscribers p; lastSnapshot := lastSnapshot p;
     stableSnapshot := stableSnapshot p; timeUpdateId := v;
     notifications := notifications p; nextFrame := nextFrame p;
     suspendedPauses := suspendedPauses p |}.

Definition with_notifications (v : nat) (p : AudioPlayer) : AudioPlayer :=
  {| state := state p; context := context p; source := source p; buffer := buffer p;
     subscribers := subscribers p; lastSnapshot := lastSnapshot p;
     stableSnapshot := stableSnapshot p; timeUpdateId := timeUpdateId p;
     notifications := v; nextFrame := nextFrame p;
     suspendedPauses := suspendedPauses p |}.

Definition with_nextFrame (v : nat) (p : AudioPlayer) : AudioPlayer :=
  {| state := state p; context := context p; source := source p; buffer := buffer p;
     subscribers := subscribers p; lastSnapshot := lastSnapshot p;
     stableSnapshot := stableSnapshot p; timeUpdateId := timeUpdateId p;
     notifications := notifications p; nextFrame := v;
     suspendedPauses := suspendedPauses p |}.

Definition with_suspendedPauses (v : nat) (p : AudioPlayer) : AudioPlayer :=
  {| state := state p; context := context p; source := source p; buffer := buffer p;
     subscribers := subscribers p; lastSnapshot := lastSnapshot p;
     stableSnapshot := stableSnapshot p; timeUpdateId := timeUpdateId p;
     notifications := notifications p; nextFrame := nextFrame p;
     suspendedPauses := v |}.

(** One key of a [Partial<AudioPlayerInternalState>]. *)
Inductive Update : Type :=
| SetIsPlaying (v : bool)
| SetIsReady (v : bool)
| SetCurrentTime (v : Q)
| SetOffset (v : Q)
| SetDuration (v : Q)
| SetStartTime (v : Q)
| SetError (v : option Thrown).

Definition apply_update (s : AudioPlayerInternalState) (u : Update)
  : AudioPlayerInternalState :=
  match u with
  | SetIsPlaying v =>
      {| id := id s; isPlaying := v; isReady := isReady s; currentTime := currentTime s;
         offset := offset s; duration := duration s; startTime := startTime s;
         error := error s |}
  | SetIsReady v =>
      {| id := id s; isPlaying := isPlaying s; isReady := v; currentTime := currentTime s;
         offset := offset s; duration := duration s; startTime := startTime s;
         error := error s |}
  | SetCurrentTime v =>
      {| id := id s; isPlaying := isPlaying s; isReady := isReady s; currentTime := v;
         offset := offset s; duration := duration s; startTime := startTime s;
         error := error s |}
  | SetOffset v =>
      {| id := id s; isPlaying := isPlaying s; isReady := isReady s;
         currentTime := currentTime s; offset := v; duration := duration s;
         startTime := startTime s; error := error s |}
  | SetDuration v =>
      {| id := id s; isPlaying := isPlaying s; isReady := isReady s;
         currentTime := currentTime s; offset := offset s; duration := v;
         startTime := startTime s; error := error s |}
  | SetStartTime v =>
      {| id := id s; isPlaying := isPlaying s; isReady := isReady s;
         currentTime := currentTime s; offset := offset s; duration := duration s;
         startTime := v; error := error s |}
  | SetError v =>
      {| id := id s; isPlaying := isPlaying s; isReady := isReady s;
         currentTime := currentTime s; offset := offset s; duration := duration s;
         startTime := startTime s; error := v |}
  end.

(** [{ ...this.state, ...updates }] *)
Definition spread (s : AudioPlayerInternalState) (updates : list Update)
  : AudioPlayerInternalState :=
  fold_left apply_update updates s.

(** [JSON.stringify(a) === JSON.stringify(b)] on internal states: equal
    numbers print alike, and every [Error] object prints as an empty
    object, so two errors are never told apart. *)
Definition error_json_eqb (a b : option Thrown) : bool :=
  match a, b with
  | None, None => true
  | Some (ErrorObj _), Some (ErrorObj _) => true
  | Some NonError, Some NonError => true
  | _, _ => false
  end.

Definition state_json_eqb (a b : AudioPlayerInternalState) : bool :=
  (String.eqb (id a) (id b)
   && Bool.eqb (isPlaying a) (isPlaying b)
   && Bool.eqb (isReady a) (isReady b)
   && Qeq_bool (currentTime a) (currentTime b)
   && Qeq_bool (offset a) (offset b)
   && Qeq_bool (duration a) (duration b)
   && Qeq_bool (startTime a) (startTime b)
   && error_json_eqb (error a) (error b))%bool.

Definition snapshot_json_eqb (a b : AudioPlayerState) : bool :=
  (Bool.eqb (s_isPlaying a) (s_isPlaying b)
   && Bool.eqb (s_isReady a) (s_isReady b)
   && Qeq_bool (s_currentTime a) (s_currentTime b)
   && Qeq_bool (s_duration a) (s_duration b))%bool.

(** *** The private methods *)

Definition getCurrentTime (p : AudioPlayer) : Q :=
  if negb (isPlaying (state p)) then offset (state p)
  else match context p with
       | None => 0
       | Some c => ctx_currentTime c - startTime (state p) + offset (state p)
       end.

Definition notify (p : AudioPlayer) : AudioPlayer :=
  with_notifications (S (notifications p)) p.

Definition transition (updates : list Update) (p : AudioPlayer) : AudioPlayer :=
  let prevState := state p in
  let p := with_state (spread (state p) updates) p in
  if negb (state_json_eqb prevState (state p)) then notify p else p.

Definition stopTimeUpdates (p : AudioPlayer) : AudioPlayer :=
  match timeUpdateId p with
  | Some _ => with_timeUpdateId None p
  | None => p
  end.

(** [setupSource()]: the node it returns, [null] without context or buffer.
    The node's [onended] handler is [onended] below. *)
Definition setupSource (p : AudioPlayer) : option AudioBufferSourceNode :=
  match context p, buffer p with
  | Some _, Some _ => Some {| started := None |}
  | _, _ => None
  end.

(** The [onended] handler every source node is given. With no buffer,
    [this.audio.buffer!.duration] throws inside the event task before
    anything is written. *)
Definition onended (p : AudioPlayer) : AudioPlayer :=
  let currentTime := getCurrentTime p in
  match buffer p with
  | None => p
  | Some b =>
      if negb (Qle_bool (buf_duration b - (1 # 10)) currentTime) then p
      else
        let p := with_state (apply_update (state p) (SetOffset 0)) p in
        let p := with_state (apply_update (state p) (SetIsPlaying false)) p in
        let p := with_source None p in
        let p := stopTimeUpdates p in
        notify p
  end.

Definition thrownMessage (e : Thrown) : string :=
  match e with
  | ErrorObj m => m
  | NonError => "Unknown error"
  end.

(** [handleError(error, code)]: always throws the error it returns here. *)
Definition handleError (e : Thrown) (c : ErrorCode) (p : AudioPlayer)
  : AudioPlayer * AudioPlayerError :=
  let audioError := {| message := thrownMessage e; code := c |} in
  (transition [SetIsReady false] p, audioError).

Definition startPlayback (p : AudioPlayer) : AudioPlayer :=
  match context p with
  | None => p
  | Some c =>
      let p := with_source (setupSource p) p in
      match source p with
      | None => p
      | Some _ =>
          let p := with_source (Some {| started := Some (offset (state p)) |}) p in
          transition [SetIsPlaying true; SetStartTime (ctx_currentTime c)] p
      end
  end.

Definition updateCurrentTime (p : AudioPlayer) : AudioPlayer :=
  match context p with
  | None => p
  | Some c =>
      let currentTime :=
        if isPlaying (state p)
        then ctx_currentTime c - startTime (state p) + offset (state p)
        else offset (state p) in
      transition [SetCurrentTime currentTime] p
  end.

Definition requestAnimationFrame (p : AudioPlayer) : AudioPlayer :=
  with_nextFrame (S (nextFrame p)) (with_timeUpdateId (Some (nextFrame p)) p).

Definition setupTimeUpdates (p : AudioPlayer) : AudioPlayer :=
  requestAnimationFrame (stopTimeUpdates p).

(** The frame callback [updateTime], run when a scheduled frame arrives. *)
Definition updateTime (p : AudioPlayer) : AudioPlayer :=
  match timeUpdateId p with
  | None => p
  | Some _ =>
      if isPlaying (state p)
      then requestAnimationFrame (updateCurrentTime p)
      else p
  end.

(** *** The public methods *)

(** [getSnapshot()]: the snapshot returned, and the engine with its
    [stableSnapshot] field possibly replaced. *)
Definition getSnapshot (p : AudioPlayer) : AudioPlayerState * AudioPlayer :=
  let newSnapshot :=
    {| s_isPlaying := isPlaying (state p);
       s_isReady := isReady (state p);
       s_currentTime := getCurrentTime p;
       s_duration := match buffer p with
                     | Some b => if Qeq_bool (buf_duration b) 0 then 0 else buf_duration b
                     | None => 0
                     end |} in
  let p := if negb (snapshot_json_eqb (stableSnapshot p) newSnapshot)
           then with_stableSnapshot newSnapshot p
           else p in
  (stableSnapshot p, p).

Definition subscribe (callback : nat) (p : AudioPlayer) : AudioPlayer :=
  if existsb (Nat.eqb callback) (subscribers p) then p
  else with_subscribers (subscribers p ++ [callback]) p.

Definition unsubscribe (callback : nat) (p : AudioPlayer) : AudioPlayer :=
  with_subscribers (filter (fun c => negb (Nat.eqb callback c)) (subscribers p)) p.

(** What the platform does during one [loadAudio] call. *)
Inductive Fetched : Type :=
| FetchRejects (e : Thrown)
| BodyRejects (e : Thrown)
| DecodeRejects (e : Thrown)
| Decoded (b : AudioBuffer).

Record Load : Type := {
  suspendRejects : option Thrown;     (* read only when a context exists *)
  fetched : Fetched
}.

(** The [catch] block of [loadAudio]. *)
Definition loadAudio_catch (e : Thrown) (p : AudioPlayer) : AudioPlayer :=
  let p := match context p with
           | Some _ => with_context None p      (* close(), then null *)
           | None => p
           end in
  let p := with_buffer None p in
  transition [SetIsReady false; SetError (Some e); SetIsPlaying false;
              SetOffset 0; SetCurrentTime 0; SetDuration 0] p.

(** The value the [try] block of [loadAudio] throws, if it throws. *)
Definition load_error (l : Load) (p : AudioPlayer) : option Thrown :=
  match context p, suspendRejects l with
  | Some _, Some e => Some e
  | _, _ =>
      match fetched l with
      | FetchRejects e => Some e
      | BodyRejects e => Some e
      | DecodeRejects e => Some e
      | Decoded _ => None
      end
  end.

(** [loadAudio(url)]: the engine afterwards and the error the call rejects
    with. The [catch] block rethrows nothing, so there is never one. *)
Definition loadAudio (l : Load) (p : AudioPlayer)
  : AudioPlayer * option AudioPlayerError :=
  let entered :=
    match context p with
    | None => inr (with_context (Some {| ctx_currentTime := 0; ctx_state := running |}) p)
    | Some c =>
        match suspendRejects l with
        | Some e => inl e
        | None => inr (with_context
                         (Some {| ctx_currentTime := ctx_currentTime c;
                                  ctx_state := suspended |}) p)
        end
    end in
  match entered with
  | inl e => (loadAudio_catch e p, None)
  | inr p =>
      match fetched l with
      | FetchRejects e => (loadAudio_catch e p, None)
      | BodyRejects e => (loadAudio_catch e p, None)
      | DecodeRejects e => (loadAudio_catch e p, None)
      | Decoded b =>
          let p := with_buffer (Some b) p in
          (* this.setupSource(): the node is dropped *)
          (transition [SetOffset 0; SetIsReady true] p, None)
      end
  end.

(** What the platform does during one [play] call. *)
Record Playing : Type := {
  resumeRejects : option Thrown;
  startThrows : option Thrown
}.

(** [play()]: the engine afterwards and the error the call rejects with. *)
Definition play (o : Playing) (p : AudioPlayer) : AudioPlayer * option AudioPlayerError :=
  match context p, buffer p with
  | Some c, Some _ =>
      if isPlaying (state p) then (p, None)
      else
        match resumeRejects o with
        | Some e =>
            let (p, err) := handleError e PLAYBACK_ERROR p in (p, Some err)
        | None =>
            let c := {| ctx_currentTime := ctx_currentTime c; ctx_state := running |} in
            let p := with_context (Some c) p in
            let p := with_source (setupSource p) p in
            match source p with
            | None => (p, None)
            | Some _ =>
                let startTime := ctx_currentTime c in
                match startThrows o with
                | Some e =>
                    let (p, err) := handleError e PLAYBACK_ERROR p in (p, Some err)
                | None =>
                    let p := with_source
                               (Some {| started := Some (offset (state p)) |}) p in
                    let p := setupTimeUpdates p in
                    (transition [SetIsPlaying true; SetStartTime startTime] p, None)
                end
            end
        end
  | _, _ => (p, None)
  end.

(** [pause()] up to its [await]: the guard, the node stopped and dropped,
    [suspend()] called. The flag tells whether the body goes on. *)
Definition pause_begin (p : AudioPlayer) : AudioPlayer * bool :=
  match context p with
  | None => (p, false)
  | Some c =>
      if negb (isPlaying (state p)) then (p, false)
      else
        let p := with_source None p in
        let p := with_context
                   (Some {| ctx_currentTime := ctx_currentTime c;
                            ctx_state := suspended |}) p in
        (p, true)
  end.

(** [pause()] after its [await]. *)
Definition pause_finish (p : AudioPlayer) : AudioPlayer :=
  let p := stopTimeUpdates p in
  transition [SetIsPlaying false; SetOffset (getCurrentTime p); SetIsReady true] p.

(** [pause()] awaited by its caller. *)
Definition pause (p : AudioPlayer) : AudioPlayer :=
  let (p, goes_on) := pause_begin p in
  if goes_on then pause_finish p else p.

Definition seek (time : Q) (p : AudioPlayer) : AudioPlayer :=
  match buffer p with
  | None => p
  | Some b =>
      let wasPlaying := isPlaying (state p) in
      let p := match source p with
               | Some _ => with_source None p
               | None => p
               end in
      let p := with_state
                 (apply_update (state p)
                    (SetOffset (Qmax 0 (Qmin time (buf_duration b))))) p in
      if wasPlaying then startPlayback p else notify p
  end.

Definition toggle (o : Playing) (p : AudioPlayer) : AudioPlayer * option AudioPlayerError :=
  if isPlaying (state p) then (pause p, None) else play o p.

(** [dispose()]. It calls [this.pause()] without awaiting it: only the part
    of [pause] before its [await] runs before the rest of [dispose]. *)
Definition dispose (p : AudioPlayer) : AudioPlayer :=
  let (p, goes_on) := pause_begin p in
  let p := if goes_on then with_suspendedPauses (S (suspendedPauses p)) p else p in
  let p := stopTimeUpdates p in
  let p := match context p with
           | Some _ => with_context None p      (* close(), then null *)
           | None => p
           end in
  let p := with_buffer None p in
  let p := with_lastSnapshot None p in
  let p := with_stableSnapshot defaultSnapshot p in
  with_state (defaultState (id (state p))) p.

(** The rest of a [pause()] body that [dispose] left at its [await]. *)
Definition pause_settles (p : AudioPlayer) : AudioPlayer :=
  match suspendedPauses p with
  | O => p
  | S n => pause_finish (with_suspendedPauses n p)
  end.

(** The audio clock moves while the context runs. *)
Definition advance (dt : Q) (p : AudioPlayer) : AudioPlayer :=
  match context p with
  | Some c =>
      match ctx_state c with
      | running =>
          if Qle_bool 0 dt
          then with_context (Some {| ctx_currentTime := ctx_currentTime c + dt;
                                     ctx_state := running |}) p
          else p
      | _ => p
      end
  | None => p
  end.

(** *** The engine as a state machine *)

Inductive Event : Type :=
| CallLoadAudio (l : Load)
| CallPlay (o : Playing)
| CallPause
| CallSeek (time : Q)
| CallToggle (o : Playing)
| CallDispose
| CallGetSnapshot
| CallSubscribe (callback : nat)
| CallUnsubscribe (callback : nat)
| OnEnded
| OnFrame
| OnPauseSettles
| OnClock (dt : Q).

Definition step (p : AudioPlayer) (ev : Event) : AudioPlayer :=
  match ev with
  | CallLoadAudio l => fst (loadAudio l p)
  | CallPlay o => fst (play o p)
  | CallPause => pause p
  | CallSeek time => seek time p
  | CallToggle o => fst (toggle o p)
  | CallDispose => dispose p
  | CallGetSnapshot => snd (getSnapshot p)
  | CallSubscribe cb => subscribe cb p
  | CallUnsubscribe cb => unsubscribe cb p
  | OnEnded => onended p
  | OnFrame => updateTime p
  | OnPauseSettles => pause_settles p
  | OnClock dt => advance dt p
  end.

Definition run (p : AudioPlayer) (evs : list Event) : AudioPlayer :=
  fold_left step evs p.

Inductive reachable : AudioPlayer -> Prop :=
| reach_initial : reachable initial
| reach_step : forall p ev, reachable p -> reachable (step p ev).

(** Clamping [x] to the interval from [lo] to [hi], as the specification
    words it; [seek] computes [Math.max(0, Math.min(time, duration))], and
    [seek_offset_is_clamp] compares the two. *)
Definition clamp (x lo hi : Q) : Q :=
  if Qle_bool x lo then lo else if Qle_bool hi x then hi else x.

(** *** Sample inputs, for the scenarios *)

(** Ten seconds of audio at 44.1 kHz. *)
Definition tenSecondClip : AudioBuffer :=
  {| buf_length := 441000; buf_sampleRate := 44100 |}.

(** A load that decodes the ten-second clip. *)
Definition tenSeconds : Load :=
  {| suspendRejects := None; fetched := Decoded tenSecondClip |}.

(** A load whose fetch rejects. *)
Definition failingFetch : Load :=
  {| suspendRejects := None; fetched := FetchRejects (ErrorObj "Failed to fetch") |}.

(** A [play] during which the platform rejects nothing. *)
Definition smoothly : Playing := {| resumeRejects := None; startThrows := None |}.

End Player.

(* ================================================================== *)
(** ** Invariants of the two state machines *)
(* ================================================================== *)
Module Invariants.

Open Scope nat_scope.

(** How often the character [c] occurs in [s]. *)
Fixpoint count_char (c : ascii) (s : string) : nat :=
  match s with
  | EmptyString => 0
  | String c' s' => (if Ascii.eqb c c' then 1 else 0) + count_char c s'
  end.

(** What the controller keeps true of its hook between two events. *)
Definition coherent (h : Recorder.Hook) : Prop :=
  (Recorder.mediaRecorderRef h = None <->
   Recorder.status (Recorder.state h) = Recorder.idle)
  /\ (Recorder.timerIntervalRef h <> None ->
      Recorder.status (Recorder.state h) = Recorder.recording)
  /\ Forall (fun c => Recorder.nonEmpty c = true) (Recorder.chunksRef h)
  /\ (Recorder.error (Recorder.state h) <> None ->
      Recorder.status (Recorder.state h) = Recorder.idle)
  /\ (Recorder.status (Recorder.state h) = Recorder.idle ->
      Recorder.recordingTime (Recorder.state h) = 0
      /\ Recorder.recordingBlob (Recorder.state h) = None
      /\ Recorder.blobUrl (Recorder.state h) = None
      /\ Recorder.chunksRef h = []
      /\ Recorder.timerIntervalRef h = None
      /\ Recorder.mediaStreamRef h = None
      /\ Recorder.cleanupRef h = false)
  /\ (Recorder.status (Recorder.state h) = Recorder.stopped ->
      Recorder.error (Recorder.state h) = None
      /\ match Recorder.recordingBlob (Recorder.state h) with
         | Some b => 0 < Recorder.size b
         | None => False
         end
      /\ match Recorder.mediaRecorderRef h with
         | Some r => Recorder.rstate r = Recorder.rs_inactive
         | None => False
         end).

(** What the engine keeps true between two events: while it is marked
    playing it holds a context whose clock has not gone back behind the
    clock reference, and a buffer; the offset is never negative. *)
Definition sound (p : Player.AudioPlayer) : Prop :=
  (Player.isPlaying (Player.state p) = true ->
   Player.buffer p <> None
   /\ exists c, Player.context p = Some c
                /\ (Player.startTime (Player.state p) <= Player.ctx_currentTime c)%Q)
  /\ (0 <= Player.offset (Player.state p))%Q.

End Invariants.

(* ================================================================== *)
(** ** The React hook around the engine (useAudioPlayer.ts) *)
(* ================================================================== *)
Module PlayerHook.

(** The module-level engine instance and the hook's [isLoading] state. *)
Record Hook : Type := { player : Player.AudioPlayer; isLoading : bool }.

Definition initial : Hook := {| player := Player.initial; isLoading := false |}.

(** The hook's [loadAudio]: [setIsLoading(true)], the awaited
    [player.loadAudio(url)], [setIsLoading(false)]. A rejection of the awaited
    call would leave the last statement out and reject in turn. *)
Definition loadAudio (l : Player.Load) (s : Hook)
  : Hook * option Player.AudioPlayerError :=
  let s := {| player := player s; isLoading := true |} in
  match Player.loadAudio l (player s) with
  | (p, None) => ({| player := p; isLoading := false |}, None)
  | (p, Some e) => ({| player := p; isLoading := isLoading s |}, Some e)
  end.

Definition play (o : Player.Playing) (s : Hook) : Hook * option Player.AudioPlayerError :=
  let (p, e) := Player.play o (player s) in
  ({| player := p; isLoading := isLoading s |}, e).

Definition pause (s : Hook) : Hook :=
  {| player := Player.pause (player s); isLoading := isLoading s |}.

Definition seek (time : Q) (s : Hook) : Hook :=
  {| player := Player.seek time (player s); isLoading := isLoading s |}.

Definition disposeAudioResources (s : Hook) : Hook :=
  {| player := Player.dispose (player s); isLoading := isLoading s |}.

(** What the hook spreads into its result: the engine's snapshot. *)
Definition snapshot (s : Hook) : Player.AudioPlayerState :=
  fst (Player.getSnapshot (player s)).

End PlayerHook.

(* ================================================================== *)
(** ** The handlers of the NoteAudio component *)
(* ================================================================== *)
Module NoteAudio.

(** The component over [useAudioRecorder] and [useAudioPlayer]: the two
    hooks, the [displayedBlob] state and, in order of the calls, what
    [onAudioChange] was called with. *)
Record App : Type := {
  recorder : Recorder.Hook;
  audio : PlayerHook.Hook;
  displayedBlob : option Recorder.Blob;
  audioChanges : list (option Recorder.Blob)
}.

Definition initial : App :=
  {| recorder := Recorder.initial; audio := PlayerHook.initial;
     displayedBlob := None; audioChanges := [] |}.

(** [handleReset()]; the file input it also clears is not modelled. *)
Definition handleReset (a : App) : App :=
  {| recorder := Recorder.releaseResources (recorder a);
     audio := PlayerHook.disposeAudioResources (audio a);
     displayedBlob := None;
     audioChanges := (audioChanges a ++ [None])%list |}.

(** [handleToggleRecording()]: [startRecording()] when there is no recording
    blob and the status is not [recording], [togglePauseResume()] otherwise. *)
Definition handleToggleRecording (isTypeSupported : string -> bool)
    (attempts : nat -> Recorder.Attempt) (a : App) : App :=
  let recordingBlob := Recorder.recordingBlob (Recorder.state (recorder a)) in
  let isRecording :=
    match Recorder.status (Recorder.state (recorder a)) with
    | Recorder.recording => true
    | _ => false
    end in
  let r :=
    match recordingBlob, isRecording with
    | None, false =>
        match Recorder.startRecording isTypeSupported attempts (recorder a) with
        | Some (_, h) => h
        | None => recorder a
        end
    | _, _ => Recorder.togglePauseResume (recorder a)
    end in
  {| recorder := r; audio := audio a; displayedBlob := displayedBlob a;
     audioChanges := audioChanges a |}.

(** [togglePlayPause()], on the [isPlaying] of the snapshot. *)
Definition togglePlayPause (o : Player.Playing) (a : App) : App :=
  let s :=
    if Player.s_isPlaying (PlayerHook.snapshot (audio a))
    then PlayerHook.pause (audio a)
    else fst (PlayerHook.play o (audio a)) in
  {| recorder := recorder a; audio := s; displayedBlob := displayedBlob a;
     audioChanges := audioChanges a |}.

End NoteAudio.

(* ================================================================== *)
(** ** The service worker (public/sw.js) *)
(* ================================================================== *)
Module ServiceWorker.

Open Scope string_scope.

Definition CACHE : string := "test-pwa".

Definition offlineFallbackPage : string := "/offline".

(** A [Response]: whether its status is in the 200 range, and its body. *)
Record Response : Type := { ok : bool; body : string }.

(** One cache: the responses stored, by request URL. The whole
    [CacheStorage]: the caches, by name. *)
Definition Cache : Type := list (string * Response).

Definition CacheStorage : Type := list (string * Cache).

Fixpoint assoc {A : Type} (k : string) (l : list (string * A)) : option A :=
  match l with
  | [] => None
  | (k', v) :: l' => if String.eqb k k' then Some v else assoc k l'
  end.

(** Storing under a key replaces what was stored under it. *)
Fixpoint put {A : Type} (k : string) (v : A) (l : list (string * A)) : list (string * A) :=
  match l with
  | [] => [(k, v)]
  | (k', v') :: l' => if String.eqb k k' then (k, v) :: l' else (k', v') :: put k v l'
  end.

(** [caches.open(name)]: the cache of that name, created empty if absent. *)
Definition caches_open (name : string) (cs : CacheStorage) : Cache * CacheStorage :=
  match assoc name cs with
  | Some c => (c, cs)
  | None => ([], put name [] cs)
  end.

(** [cache.match(url)] *)
Definition cache_match (url : string) (c : Cache) : option Response := assoc url c.

(** [cache.add(url)], [fetched] being what the fetch of [url] settles with:
    the response is stored when the fetch resolves with an ok response, and
    the call rejects otherwise. *)
Definition cache_add (url : string) (fetched : Thrown + Response) (c : Cache)
  : Thrown + Cache :=
  match fetched with
  | inl e => inl e
  | inr r => if ok r then inr (put url r c)
             else inl (ErrorObj "TypeError")   (* the message is the browser's *)
  end.

(** The [install] listener: the promise given to [waitUntil]. The storage
    afterwards, and the rejection if the installation fails. *)
Definition install (fetched : Thrown + Response) (cs : CacheStorage)
  : CacheStorage * option Thrown :=
  let (cache, cs) := caches_open CACHE cs in
  match cache_add offlineFallbackPage fetched cache with
  | inl e => (cs, Some e)
  | inr cache' => (put CACHE cache' cs, None)
  end.

Inductive RequestMode : Type := navigate | same_origin | no_cors | cors.

(** What the platform does during one [fetch] event: what
    [event.preloadResponse] settles with ([None]: undefined) and what
    [fetch(event.request)] settles with. *)
Record Network : Type := {
  preloadResponse : Thrown + option Response;
  networkResponse : Thrown + Response
}.

(** What the [fetch] listener does with an event: nothing, or
    [respondWith] a promise that resolves with a response or undefined. *)
Inductive Handling : Type :=
| NotHandled
| RespondWith (r : option Response).

Definition offlineResponse (cs : CacheStorage) : option Response * CacheStorage :=
  let (cache, cs) := caches_open CACHE cs in
  (cache_match offlineFallbackPage cache, cs).

Definition onFetch (mode : RequestMode) (n : Network) (cs : CacheStorage)
  : Handling * CacheStorage :=
  match mode with
  | navigate =>
      match preloadResponse n with
      | inl _ => let (r, cs) := offlineResponse cs in (RespondWith r, cs)
      | inr (Some preloadResp) => (RespondWith (Some preloadResp), cs)
      | inr None =>
          match networkResponse n with
          | inl _ => let (r, cs) := offlineResponse cs in (RespondWith r, cs)
          | inr networkResp => (RespondWith (Some networkResp), cs)
          end
      end
  | _ => (NotHandled, cs)
  end.

(** The request cannot be answered from the network: the preload rejects,
    or there is no preload response and the fetch rejects. These are the
    ways into the [catch] block of the listener. *)
Definition offline (n : Network) : Prop :=
  (exists e, preloadResponse n = inl e)
  \/ (preloadResponse n = inr None /\ exists e, networkResponse n = inl e).

(** The [message] listener: whether it calls [skipWaiting]. [data] is the
    [type] field of [event.data], if there is one. *)
Definition onMessage (data : option string) : bool :=
  match data with
  | Some t => String.eqb t "SKIP_WAITING"
  | None => false
  end.

End ServiceWorker.

(* ================================================================== *)
(** * Properties of the encoding-format table *)
(* ================================================================== *)
Module AudioConstFacts.
Import AudioConst.
Open Scope string_scope.

Lemma sorted_keys :
  sort_by by_priority (keys AUDIO_CONFIGS)
  = ["audio/webm;codecs=opus"; "audio/webm"; "audio/mp4"; "audio/mpeg"].
Proof. reflexivity. Qed.

(** The sorted candidates are in ascending priority, whatever the order of
    the literal. *)
Lemma sorted_keys_ascending :
  map priority_of (sort_by by_priority (keys AUDIO_CONFIGS)) = [1; 2; 3; 4]%Z.
Proof. reflexivity. Qed.

Lemma key_cases (k : string) :
  In k (keys AUDIO_CONFIGS) ->
  k = "audio/webm;codecs=opus" \/ k = "audio/webm" \/ k = "audio/mp4" \/ k = "audio/mpeg".
Proof.
  simpl. intros [H | [H | [H | [H | []]]]]; subst; auto.
Qed.

(** The five ways the selection can end: the first supported candidate in
    priority order, or the fallback. *)
Lemma getBest_cases (sup : string -> bool) :
  (sup "audio/webm;codecs=opus" = true
   /\ getBestSupportedMimeType sup = "audio/webm;codecs=opus")
  \/ (sup "audio/webm;codecs=opus" = false /\ sup "audio/webm" = true
      /\ getBestSupportedMimeType sup = "audio/webm")
  \/ (sup "audio/webm;codecs=opus" = false /\ sup "audio/webm" = false
      /\ sup "audio/mp4" = true
      /\ getBestSupportedMimeType sup = "audio/mp4")
  \/ (sup "audio/webm;codecs=opus" = false /\ sup "audio/webm" = false
      /\ sup "audio/mp4" = false /\ sup "audio/mpeg" = true
      /\ getBestSupportedMimeType sup = "audio/mpeg")
  \/ (sup "audio/webm;codecs=opus" = false /\ sup "audio/webm" = false
      /\ sup "audio/mp4" = false /\ sup "audio/mpeg" = false
      /\ getBestSupportedMimeType sup = "audio/mp4").
Proof.
  unfold getBestSupportedMimeType. rewrite sorted_keys. cbn [find].
  destruct (sup "audio/webm;codecs=opus") eqn:E1; [auto |].
  destruct (sup "audio/webm") eqn:E2; [auto 6 |].
  destruct (sup "audio/mp4") eqn:E3; [auto 8 |].
  destruct (sup "audio/mpeg") eqn:E4; [auto 10 | auto 12].
Qed.

Lemma getBest_in_table (sup : string -> bool) :
  In (getBestSupportedMimeType sup) (keys AUDIO_CONFIGS).
Proof.
  destruct (getBest_cases sup)
    as [[_ ->] | [(_ & _ & ->) | [(_ & _ & _ & ->) | [(_ & _ & _ & _ & ->) | (_ & _ & _ & _ & ->)]]]];
    simpl; auto 6.
Qed.

Lemma getBest_none_supported (sup : string -> bool) :
  (forall k, In k (keys AUDIO_CONFIGS) -> sup k = false) ->
  getBestSupportedMimeType sup = "audio/mp4"
  /\ sup (getBestSupportedMimeType sup) = false.
Proof.
  intros Hnone.
  assert (H3 : sup "audio/mp4" = false) by (apply Hnone; simpl; auto).
  assert (H1 : sup "audio/webm;codecs=opus" = false) by (apply Hnone; simpl; auto).
  assert (H2 : sup "audio/webm" = false) by (apply Hnone; simpl; auto).
  assert (H4 : sup "audio/mpeg" = false) by (apply Hnone; simpl; auto 6).
  destruct (getBest_cases sup)
    as [[E _] | [(_ & E & _) | [(_ & _ & E & _) | [(_ & _ & _ & E & _) | (_ & _ & _ & _ & E)]]]];
    try congruence.
  rewrite E. auto.
Qed.

Lemma getBest_some_supported (sup : string -> bool) (k : string) :
  In k (keys AUDIO_CONFIGS) -> sup k = true ->
  sup (getBestSupportedMimeType sup) = true
  /\ (priority_of (getBestSupportedMimeType sup) <= priority_of k)%Z.
Proof.
  intros Hk Hs.
  destruct (getBest_cases sup)
    as [[E1 ->] | [(E1 & E2 & ->) | [(E1 & E2 & E3 & ->)
       | [(E1 & E2 & E3 & E4 & ->) | (E1 & E2 & E3 & E4 & ->)]]]];
    destruct (key_cases Hk) as [-> | [-> | [-> | ->]]];
    try congruence; (split; [assumption | vm_compute; congruence]).
Qed.

(** C10. Whatever the platform supports, the MIME type
    [getBestSupportedMimeType] returns is a key of [AUDIO_CONFIGS] (the
    fallback "audio/mp4" is one), so [getFileExtensionOrThrow] and
    [generateFileName] return a value on it and never throw. *)
Theorem C10_best_mime_type_is_a_table_key :
  forall (isTypeSupported : string -> bool) (iso : string),
    let m := getBestSupportedMimeType isTypeSupported in
    In m (keys AUDIO_CONFIGS)
    /\ In "audio/mp4" (keys AUDIO_CONFIGS)
    /\ isSupportedMimeType m = true
    /\ (exists ext, getFileExtensionOrThrow m = Ok ext
                    /\ generateFileName iso m
                       = Ok ("recording-" ++ replace_colon_dot iso ++ "." ++ ext)).
Proof.
  intros sup iso m. subst m.
  split; [apply getBest_in_table |].
  split; [simpl; auto |].
  destruct (getBest_cases sup)
    as [[_ ->] | [(_ & _ & ->) | [(_ & _ & _ & ->) | [(_ & _ & _ & _ & ->) | (_ & _ & _ & _ & ->)]]]];
    (split; [reflexivity | eexists; split; reflexivity]).
Qed.

End AudioConstFacts.

(* ================================================================== *)
(** * Properties of the recording controller *)
(* ================================================================== *)
Module RecorderFacts.
Import Recorder.
Open Scope string_scope.
Open Scope nat_scope.

(** ** reset *)

(** What [reset] leaves: everything cleared but the device list, the device
    label, the MIME type ref and the id counter. *)
Lemma reset_eq (h : Hook) :
  reset h =
  {| state := INITIAL_STATE; devices := devices h;
     currentDeviceLabel := currentDeviceLabel h;
     mediaRecorderRef := None; mediaStreamRef := None; chunksRef := [];
     timerIntervalRef := None; mimeTypeRef := mimeTypeRef h;
     cleanupRef := false; fresh := fresh h |}.
Proof.
  destruct h as [st ds lbl [r|] [s|] cs [t|] m [|] f];
    try (destruct r as [[| |] rs rm rb rl]); reflexivity.
Qed.

Lemma reset_idempotent (h : Hook) : reset (reset h) = reset h.
Proof. rewrite !reset_eq. reflexivity. Qed.

Lemma handleError_eq (e : Thrown) (h : Hook) :
  _handleError e h =
  {| state := {| status := idle; recordingTime := 0; recordingBlob := None;
                 blobUrl := None; error := Some (asError e) |};
     devices := devices h; currentDeviceLabel := currentDeviceLabel h;
     mediaRecorderRef := None; mediaStreamRef := None; chunksRef := [];
     timerIntervalRef := None; mimeTypeRef := mimeTypeRef h;
     cleanupRef := false; fresh := fresh h |}.
Proof. unfold _handleError. rewrite reset_eq. reflexivity. Qed.

(** ** One acquisition attempt *)

(** The part of [attempt] before [getUserMedia] leaves a cleared hook. *)
Lemma attempt_prefix (h : Hook) :
  reset (match mediaRecorderRef h with
         | Some r => if is_recording (rstate r) then stopRecording h else h
         | None => h
         end) = reset h.
Proof.
  rewrite !reset_eq.
  destruct h as [st ds lbl [r|] s cs t m c f]; [| reflexivity].
  destruct r as [[| |] rs rm rb rl]; cbn; try reflexivity.
  destruct t; reflexivity.
Qed.

Ltac raised_shape :=
  repeat match goal with |- _ /\ _ => split end;
  try reflexivity; try congruence;
  let r := fresh "r" in let Hr := fresh "Hr" in
  intros r Hr; inversion Hr; split; reflexivity.

(** A failed attempt leaves the hook idle, and its recorder, if one was
    made, without listeners. *)
Lemma attempt_Raised sup a h e h' :
  attempt sup a h = Raised e h' ->
  status (state h') = idle
  /\ chunksRef h' = []
  /\ timerIntervalRef h' = None
  /\ (forall r, mediaRecorderRef h' = Some r ->
                listeners r = None /\ rstate r = rs_inactive).
Proof.
  unfold attempt. rewrite attempt_prefix, reset_eq.
  destruct (gum a) as [e0 | s]; cbn.
  - intros H; inversion H; subst; cbn. raised_shape.
  - destruct (active s); cbn.
    + destruct (sup (AudioConst.getBestSupportedMimeType sup)); cbn.
      * destruct (startThrows a); cbn; intros H; inversion H; subst; cbn.
        raised_shape.
      * intros H; inversion H; subst; cbn. raised_shape.
    + intros H; inversion H; subst; cbn. raised_shape.
Qed.

(** A successful attempt leaves a recording session: a recorder with its
    listeners attached, no chunk yet, no data seen, no error. *)
Lemma attempt_Done sup a h h' :
  attempt sup a h = Done h' ->
  exists s,
    gum a = inr s /\ active s = true /\ startThrows a = None
    /\ sup (AudioConst.getBestSupportedMimeType sup) = true
    /\ h' =
       {| state := {| status := recording; recordingTime := 0;
                      recordingBlob := None; blobUrl := None; error := None |};
          devices := devices h;
          currentDeviceLabel := Some (deviceLabel (devices h));
          mediaRecorderRef :=
            Some {| rstate := rs_recording; stream := s;
                    mimeType := AudioConst.getBestSupportedMimeType sup;
                    audioBitsPerSecond := RECORDER_OPTIONS_audioBitsPerSecond;
                    listeners := Some {| dataReceived := false |} |};
          mediaStreamRef := Some s; chunksRef := [];
          timerIntervalRef := Some (fresh h);
          mimeTypeRef := Some (AudioConst.getBestSupportedMimeType sup);
          cleanupRef := true; fresh := S (fresh h) |}.
Proof.
  unfold attempt. rewrite attempt_prefix, reset_eq.
  destruct (gum a) as [e0 | s]; cbn; [discriminate |].
  destruct (active s) eqn:Ha; cbn; [| discriminate].
  destruct (sup (AudioConst.getBestSupportedMimeType sup)) eqn:Hs; cbn; [| discriminate].
  destruct (startThrows a) eqn:Ht; cbn; [discriminate |].
  intros H; inversion H; subst. exists s. auto.
Qed.

(** Inside one call of [startRecording], after an attempt whose
    [recorder.start] threw and before the retry, the ref holds the recorder
    that failed to start, its listeners removed, while the status is
    [idle]. The retry begins with [reset], which clears it. *)
Remark attempt_start_throws sup a h s e :
  gum a = inr s -> active s = true ->
  sup (AudioConst.getBestSupportedMimeType sup) = true ->
  startThrows a = Some e ->
  exists h' r,
    attempt sup a h = Raised e h'
    /\ status (state h') = idle
    /\ mediaRecorderRef h' = Some r
    /\ listeners r = None /\ rstate r = rs_inactive.
Proof.
  intros Hg Ha Hs Ht. unfold attempt.
  rewrite attempt_prefix, reset_eq, Hg. cbn. rewrite Ha. cbn. rewrite Hs, Ht. cbn.
  do 2 eexists. repeat split; reflexivity.
Qed.

(** ** The retry loop *)

(** [startRecording] written out: at most three attempts, a wait of one
    second before the second and before the third, and [_handleError] only
    when the third has thrown. *)
Lemma startRecording_unfold sup attempts h :
  startRecording sup attempts h =
  match attempt sup (attempts 0) h with
  | Done h1 => Some ([Acquire], h1)
  | Raised _ h1 =>
      match attempt sup (attempts 1) h1 with
      | Done h2 => Some ([Acquire; Sleep 1000; Acquire], h2)
      | Raised _ h2 =>
          match attempt sup (attempts 2) h2 with
          | Done h3 =>
              Some ([Acquire; Sleep 1000; Acquire; Sleep 1000; Acquire], h3)
          | Raised e2 h3 =>
              Some ([Acquire; Sleep 1000; Acquire; Sleep 1000; Acquire],
                    _handleError e2 h3)
          end
      end
  end.
Proof.
  unfold startRecording. cbn [startRecording_from].
  destruct (attempt sup (attempts 0) h) as [h1 | e0 h1]; [reflexivity |].
  change (0 <? 2) with true. cbn iota. change (0 + 1) with 1.
  destruct (attempt sup (attempts 1) h1) as [h2 | e1 h2]; [reflexivity |].
  change (1 <? 2) with true. cbn iota. change (1 + 1) with 2.
  destruct (attempt sup (attempts 2) h2) as [h3 | e2 h3]; reflexivity.
Qed.

(** The recursion of [startRecording] always ends within its three units of
    fuel: the call returns. *)
Lemma startRecording_returns sup attempts h :
  exists tr h', startRecording sup attempts h = Some (tr, h').
Proof.
  rewrite startRecording_unfold.
  destruct (attempt sup (attempts 0) h); [eauto |].
  destruct (attempt sup (attempts 1) h0); [eauto |].
  destruct (attempt sup (attempts 2) h1); eauto.
Qed.

(** More fuel changes nothing. *)
Lemma startRecording_fuel sup attempts h n :
  startRecording_from (3 + n) sup attempts 0 h = startRecording sup attempts h.
Proof.
  unfold startRecording. cbn [startRecording_from Nat.add].
  destruct (attempt sup (attempts 0) h) as [h1 | e0 h1]; [reflexivity |].
  change (0 <? 2) with true. cbn iota. change (0 + 1) with 1.
  destruct (attempt sup (attempts 1) h1) as [h2 | e1 h2]; [reflexivity |].
  change (1 <? 2) with true. cbn iota. change (1 + 1) with 2.
  destruct (attempt sup (attempts 2) h2) as [h3 | e2 h3]; reflexivity.
Qed.

(** Whether an attempt throws, and what, is decided by the platform alone,
    not by the state the hook is in. *)
Lemma attempt_Raised_any_state sup a h e h' :
  attempt sup a h = Raised e h' ->
  forall g, exists g', attempt sup a g = Raised e g'.
Proof.
  unfold attempt. intros H g. rewrite attempt_prefix, reset_eq in *.
  destruct (gum a) as [e0 | s]; cbn in *.
  - inversion H; subst. eauto.
  - destruct (active s); cbn in *.
    + destruct (sup (AudioConst.getBestSupportedMimeType sup)); cbn in *.
      * destruct (startThrows a); cbn in *; inversion H; subst. eauto.
      * inversion H; subst. eauto.
    + inversion H; subst. eauto.
Qed.

(** C6. A failed acquisition attempt is retried, the whole attempt again, at
    most twice more, with a wait of 1000 ms before each retry. The error is
    surfaced only when the third attempt in a row has failed: then the hook
    is fully reset and the state is [idle] with the error recorded. An
    attempt that succeeds ends the call with no error. *)
Theorem C6_acquisition_is_retried_twice :
  forall sup attempts h,
    (* three failures in a row *)
    (forall e0 h1 e1 h2 e2 h3,
        attempt sup (attempts 0) h = Raised e0 h1 ->
        attempt sup (attempts 1) h1 = Raised e1 h2 ->
        attempt sup (attempts 2) h2 = Raised e2 h3 ->
        exists h',
          startRecording sup attempts h
          = Some ([Acquire; Sleep 1000; Acquire; Sleep 1000; Acquire], h')
          /\ state h' = {| status := idle; recordingTime := 0;
                           recordingBlob := None; blobUrl := None;
                           error := Some (asError e2) |}
          /\ mediaRecorderRef h' = None /\ mediaStreamRef h' = None
          /\ chunksRef h' = [] /\ timerIntervalRef h' = None
          /\ cleanupRef h' = false)
    (* success at the first attempt *)
    /\ (forall h1,
           attempt sup (attempts 0) h = Done h1 ->
           startRecording sup attempts h = Some ([Acquire], h1)
           /\ status (state h1) = recording /\ error (state h1) = None)
    (* success at the second attempt *)
    /\ (forall e0 h1 h2,
           attempt sup (attempts 0) h = Raised e0 h1 ->
           attempt sup (attempts 1) h1 = Done h2 ->
           startRecording sup attempts h = Some ([Acquire; Sleep 1000; Acquire], h2)
           /\ status (state h2) = recording /\ error (state h2) = None)
    (* success at the third attempt *)
    /\ (forall e0 h1 e1 h2 h3,
           attempt sup (attempts 0) h = Raised e0 h1 ->
           attempt sup (attempts 1) h1 = Raised e1 h2 ->
           attempt sup (attempts 2) h2 = Done h3 ->
           startRecording sup attempts h
           = Some ([Acquire; Sleep 1000; Acquire; Sleep 1000; Acquire], h3)
           /\ status (state h3) = recording /\ error (state h3) = None).
Proof.
  intros sup attempts h. rewrite startRecording_unfold.
  split; [| split; [| split]].
  - intros e0 h1 e1 h2 e2 h3 E0 E1 E2. rewrite E0, E1, E2.
    eexists; split; [reflexivity |]. rewrite handleError_eq. cbn. auto 10.
  - intros h1 E0. rewrite E0.
    destruct (attempt_Done _ _ _ E0) as (s & _ & _ & _ & _ & ->). auto.
  - intros e0 h1 h2 E0 E1. rewrite E0, E1.
    destruct (attempt_Done _ _ _ E1) as (s & _ & _ & _ & _ & ->). auto.
  - intros e0 h1 e1 h2 h3 E0 E1 E2. rewrite E0, E1, E2.
    destruct (attempt_Done _ _ _ E2) as (s & _ & _ & _ & _ & ->). auto.
Qed.

(** Three refusals of the microphone: three attempts, two waits, then the
    error with an idle state. *)
Lemma C6_witness :
  exists h',
    startRecording allSupported (fun _ => deniedAttempt) initial
    = Some ([Acquire; Sleep 1000; Acquire; Sleep 1000; Acquire], h')
    /\ state h' = {| status := idle; recordingTime := 0;
                     recordingBlob := None; blobUrl := None;
                     error := Some "Permission denied" |}
    /\ mediaRecorderRef h' = None /\ mediaStreamRef h' = None
    /\ chunksRef h' = [] /\ timerIntervalRef h' = None
    /\ cleanupRef h' = false.
Proof.
  refine (proj1 (C6_acquisition_is_retried_twice allSupported (fun _ => deniedAttempt) initial)
            (ErrorObj "Permission denied") _ (ErrorObj "Permission denied") _
            (ErrorObj "Permission denied") _ _ _ _);
    reflexivity.
Defined.

(** ** Format selection inside startRecording *)

(** When the selected MIME type is not supported, every attempt throws; it
    throws the unsupported-type error if the stream was acquired. *)
Lemma attempt_unsupported sup a h :
  sup (AudioConst.getBestSupportedMimeType sup) = false ->
  exists e h',
    attempt sup a h = Raised e h'
    /\ (forall s, gum a = inr s -> active s = true ->
          e = ErrorObj ("Mime type " ++ AudioConst.getBestSupportedMimeType sup
                        ++ " is not supported")).
Proof.
  intros Hs. unfold attempt. rewrite attempt_prefix, reset_eq.
  destruct (gum a) as [e0 | s]; cbn.
  - do 2 eexists. split; [reflexivity | discriminate].
  - destruct (active s) eqn:Ha; cbn.
    + rewrite Hs. cbn. do 2 eexists. split; [reflexivity | reflexivity].
    + do 2 eexists. split; [reflexivity |].
      intros s' E Ha'. inversion E; subst. congruence.
Qed.

(** C9. Among the table entries the platform supports, format selection
    returns the one with the lowest priority number; with none supported it
    returns the fallback "audio/mp4". In that last case every attempt of
    [startRecording] fails: after three attempts the hook is idle with an
    error, which is the unsupported-type error when the final attempt got
    as far as an active stream. *)
Theorem C9_format_selection_by_priority :
  forall (isTypeSupported : string -> bool),
    let m := AudioConst.getBestSupportedMimeType isTypeSupported in
    (forall k, In k (AudioConst.keys AudioConst.AUDIO_CONFIGS) ->
               isTypeSupported k = true ->
               In m (AudioConst.keys AudioConst.AUDIO_CONFIGS)
               /\ isTypeSupported m = true
               /\ (AudioConst.priority_of m <= AudioConst.priority_of k)%Z)
    /\ ((forall k, In k (AudioConst.keys AudioConst.AUDIO_CONFIGS) ->
                   isTypeSupported k = false) ->
        m = "audio/mp4"
        /\ forall attempts h,
            exists h',
              startRecording isTypeSupported attempts h
              = Some ([Acquire; Sleep 1000; Acquire; Sleep 1000; Acquire], h')
              /\ status (state h') = idle
              /\ error (state h') <> None
              /\ mediaRecorderRef h' = None
              /\ (forall s, gum (attempts 2) = inr s -> active s = true ->
                    error (state h') = Some "Mime type audio/mp4 is not supported")).
Proof.
  intros sup m. subst m. split.
  - intros k Hk Hs. split; [apply AudioConstFacts.getBest_in_table |].
    apply (AudioConstFacts.getBest_some_supported sup Hk Hs).
  - intros Hnone.
    destruct (AudioConstFacts.getBest_none_supported sup Hnone) as [Em Hm].
    split; [exact Em |].
    intros attempts h. rewrite startRecording_unfold.
    destruct (attempt_unsupported sup (attempts 0) h Hm) as (e0 & h1 & E0 & _).
    destruct (attempt_unsupported sup (attempts 1) h1 Hm) as (e1 & h2 & E1 & _).
    destruct (attempt_unsupported sup (attempts 2) h2 Hm) as (e2 & h3 & E2 & He2).
    rewrite E0, E1, E2. eexists. split; [reflexivity |].
    rewrite handleError_eq. cbn.
    split; [reflexivity |]. split; [discriminate |]. split; [reflexivity |].
    intros s Hg Ha. rewrite (He2 s Hg Ha), Em. reflexivity.
Qed.

(** Scenario D: a platform that supports no format of the table, with the
    microphone granted on every attempt. *)
Lemma C9_witness :
  AudioConst.getBestSupportedMimeType noneSupported = "audio/mp4"
  /\ exists h',
      startRecording noneSupported (fun _ => okAttempt) initial
      = Some ([Acquire; Sleep 1000; Acquire; Sleep 1000; Acquire], h')
      /\ status (state h') = idle
      /\ mediaRecorderRef h' = None
      /\ error (state h') = Some "Mime type audio/mp4 is not supported".
Proof.
  destruct (proj2 (C9_format_selection_by_priority noneSupported)
              (fun k _ => eq_refl)) as [Em Hall].
  split; [exact Em |].
  destruct (Hall (fun _ => okAttempt) initial) as (h' & E & Hi & _ & Hn & He).
  exists h'. split; [exact E |]. split; [exact Hi |]. split; [exact Hn |].
  exact (He okStream eq_refl eq_refl).
Defined.

(** ** The recorder handle and the status *)

(** Every step keeps: the ref holds no recorder exactly when the status is
    [idle]. *)
Lemma step_keeps_handle sup h ev :
  (mediaRecorderRef h = None <-> status (state h) = idle) ->
  (mediaRecorderRef (step sup h ev) = None <-> status (state (step sup h ev)) = idle).
Proof.
  intros Inv.
  destruct ev as [attempts | | | | data | | | | | | ds]; unfold step.
  - (* startRecording *)
    rewrite startRecording_unfold.
    destruct (attempt sup (attempts 0) h) as [h1 | e0 h1] eqn:E0.
    { destruct (attempt_Done _ _ _ E0) as (s & _ & _ & _ & _ & ->).
      cbn; split; discriminate. }
    destruct (attempt sup (attempts 1) h1) as [h2 | e1 h2] eqn:E1.
    { destruct (attempt_Done _ _ _ E1) as (s & _ & _ & _ & _ & ->).
      cbn; split; discriminate. }
    destruct (attempt sup (attempts 2) h2) as [h3 | e2 h3] eqn:E2.
    { destruct (attempt_Done _ _ _ E2) as (s & _ & _ & _ & _ & ->).
      cbn; split; discriminate. }
    rewrite handleError_eq. cbn. split; reflexivity.
  - (* stopRecording *)
    destruct h as [st ds lbl [r|] s cs t m c f]; cbn in *; [| exact Inv].
    destruct (is_inactive (rstate r)); cbn; [exact Inv |].
    destruct t; cbn; split; intros H; try discriminate;
      apply Inv in H; discriminate.
  - (* togglePauseResume *)
    destruct h as [[sts rt rb bu er] ds lbl [r|] s cs t m c f]; cbn in *; [| exact Inv].
    destruct (is_inactive (rstate r)); cbn; [exact Inv |].
    destruct sts; cbn; try exact Inv; destruct t; cbn; split; discriminate.
  - (* releaseResources *)
    unfold releaseResources. rewrite reset_eq. cbn. split; reflexivity.
  - (* dataavailable *)
    unfold dispatch.
    destruct h as [st ds lbl [r|] s cs t m c f]; cbn in *; [| exact Inv].
    destruct (listeners r); [| exact Inv].
    unfold handleDataAvailable.
    destruct (0 <? size data); [| exact Inv].
    destruct (0 <? size _); cbn;
      split; intros H; try discriminate; apply Inv in H; discriminate.
  - (* stop *)
    unfold dispatch.
    destruct h as [[sts rt rb bu er] ds lbl [r|] s cs t m c f]; cbn in *; [| exact Inv].
    destruct (listeners r) as [cl|]; cbn.
    + unfold handleStop.
      destruct (negb (dataReceived cl)); [rewrite handleError_eq; cbn; split; reflexivity |].
      cbn [chunksRef with_mediaRecorderRef].
      destruct (Nat.eqb (List.length cs) 0); [rewrite handleError_eq; cbn; split; reflexivity |].
      match goal with |- context [if ?b then _ else _] => destruct b end;
        [rewrite handleError_eq; cbn; split; reflexivity |].
      destruct t; cbn; split; discriminate.
    + split; intros H; try discriminate. apply Inv in H; discriminate.
  - (* pause *)
    unfold dispatch.
    destruct h as [st ds lbl [r|] s cs t m c f]; cbn in *; [| exact Inv].
    destruct (listeners r); [| exact Inv].
    destruct t; cbn; split; discriminate.
  - (* resume *)
    unfold dispatch.
    destruct h as [st ds lbl [r|] s cs t m c f]; cbn in *; [| exact Inv].
    destruct (listeners r); [| exact Inv].
    destruct t; cbn; split; discriminate.
  - (* error *)
    unfold dispatch.
    destruct h as [st ds lbl [r|] s cs t m c f]; cbn in *; [| exact Inv].
    destruct (listeners r); [| exact Inv].
    unfold handleError. rewrite handleError_eq. cbn. split; reflexivity.
  - (* tick *)
    destruct h as [st ds lbl r s cs [t|] m c f]; cbn in *; exact Inv.
  - (* devices *)
    destruct h; cbn in *; exact Inv.
Qed.

Lemma recorder_reachable_run sup h evs :
  reachable sup h -> reachable sup (run sup h evs).
Proof.
  revert h. induction evs as [| ev evs IH]; intros h Hr; cbn; [exact Hr |].
  apply IH. constructor. exact Hr.
Qed.

(** C3, as the code has it. In every state reachable by calls of the
    controller and events of its recorder, each run to completion, the ref
    holds a recorder exactly when the status is [recording], [paused] or
    [stopped]; it holds none exactly when the status is [idle]. *)
Theorem C3_handle_is_null_iff_idle :
  forall sup h,
    reachable sup h ->
    (mediaRecorderRef h = None <-> status (state h) = idle)
    /\ (mediaRecorderRef h <> None <->
        status (state h) = recording \/ status (state h) = paused
        \/ status (state h) = stopped).
Proof.
  intros sup h Hr.
  assert (Inv : mediaRecorderRef h = None <-> status (state h) = idle).
  { induction Hr as [| h ev Hr IH].
    - cbn. split; reflexivity.
    - apply step_keeps_handle. exact IH. }
  split; [exact Inv |].
  destruct (mediaRecorderRef h) as [r|]; destruct (status (state h));
    split; intros H; try congruence;
    try (destruct Inv as [I1 I2]; first [specialize (I1 eq_refl) | specialize (I2 eq_refl)]; discriminate);
    try (destruct H as [H | [H | H]]; discriminate); auto.
Qed.

(** The state after Scenario A: a recorder is still held while the status
    is [stopped]. *)
Lemma C3_counterexample :
  let h := run allSupported initial
             [CallStartRecording (fun _ => okAttempt);
              OnDataAvailable (chunk 10); OnDataAvailable (chunk 20);
              OnDataAvailable (chunk 30); CallStopRecording; OnStop] in
  reachable allSupported h
  /\ status (state h) = stopped
  /\ mediaRecorderRef h <> None
  /\ ~ (mediaRecorderRef h <> None <->
        status (state h) = recording \/ status (state h) = paused).
Proof.
  cbv zeta. split; [apply recorder_reachable_run; constructor |].
  split; [reflexivity |]. split; [discriminate |].
  intros [H _].
  assert (Hn : mediaRecorderRef
                 (run allSupported initial
                    [CallStartRecording (fun _ => okAttempt);
                     OnDataAvailable (chunk 10); OnDataAvailable (chunk 20);
                     OnDataAvailable (chunk 30); CallStopRecording; OnStop]) <> None)
    by discriminate.
  destruct (H Hn) as [E | E]; discriminate E.
Qed.

Lemma C3_witness :
  let h := run allSupported initial
             [CallStartRecording (fun _ => okAttempt);
              CallTogglePauseResume; OnPause] in
  (mediaRecorderRef h = None <-> status (state h) = idle)
  /\ (mediaRecorderRef h <> None <->
      status (state h) = recording \/ status (state h) = paused
      \/ status (state h) = stopped).
Proof.
  cbv zeta. apply (@C3_handle_is_null_iff_idle allSupported).
  apply recorder_reachable_run. constructor.
Defined.

(** ** Chunk assembly *)

Lemma size_rewrapped (d : Blob) (m : string) : size (newBlob [d] m) = size d.
Proof. unfold size, newBlob. cbn. rewrite app_nil_r. reflexivity. Qed.

Lemma bytes_rewrapped (m : string) (cs : list Blob) :
  List.concat (map bytes (map (fun d => newBlob [d] m) cs)) = List.concat (map bytes cs).
Proof.
  induction cs as [| c cs IH]; cbn; [reflexivity |].
  rewrite app_nil_r, IH. reflexivity.
Qed.

Lemma size_concat (cs : list Blob) :
  List.length (List.concat (map bytes cs)) = list_sum (map size cs).
Proof.
  induction cs as [| c cs IH]; cbn; [reflexivity |].
  rewrite length_app, IH. reflexivity.
Qed.

Lemma filter_nil_existsb (ds : list Blob) :
  filter nonEmpty ds = [] -> existsb nonEmpty ds = false.
Proof.
  induction ds as [| d ds IH]; cbn [filter existsb]; [reflexivity |].
  destruct (nonEmpty d); [discriminate | exact IH].
Qed.

Lemma filter_cons_existsb (ds : list Blob) :
  filter nonEmpty ds <> [] ->
  existsb nonEmpty ds = true
  /\ exists d cs, filter nonEmpty ds = d :: cs /\ nonEmpty d = true.
Proof.
  induction ds as [| d ds IH]; cbn [filter existsb]; [congruence |].
  destruct (nonEmpty d) eqn:E; cbn [orb].
  - intros _. split; [reflexivity |]. eauto.
  - exact IH.
Qed.

(** An event of a session in progress keeps it in progress, with the chunk
    it delivered, if any, added to the ones seen. *)
Ltac still_in_progress :=
  split; [reflexivity |]; split; [reflexivity |];
  eexists; split; [reflexivity | cbn; assumption].

Lemma in_progress_step sup m ds h ev :
  in_progress m ds h ->
  in_session ev = true \/ ev = CallStopRecording ->
  in_progress m (ds ++ delivered [ev]) (step sup h ev).
Proof.
  intros (Hm & Hc & r & Hr & Hl) Hev.
  destruct h as [[sts rt rb bu er] dv lbl rr s cs t mm c f]; cbn in Hm, Hc, Hr.
  subst rr mm cs.
  destruct ev as [attempts | | | | data | | | | | | ds'];
    try (destruct Hev as [Hev | Hev]; discriminate Hev); clear Hev.
  - (* stopRecording *)
    cbn [delivered]. rewrite app_nil_r. cbn.
    destruct (is_inactive (rstate r)); cbn;
      [| destruct t; cbn]; still_in_progress.
  - (* togglePauseResume *)
    cbn [delivered]. rewrite app_nil_r. cbn.
    destruct (is_inactive (rstate r)); cbn;
      [| destruct sts; cbn; try destruct t; cbn];
      still_in_progress.
  - (* dataavailable *)
    cbn [delivered step dispatch mediaRecorderRef]. rewrite Hl.
    unfold handleDataAvailable, in_progress.
    rewrite filter_app, map_app, existsb_app. cbn [filter existsb map].
    assert (Hn : nonEmpty data = (0 <? size data)) by reflexivity.
    rewrite !Hn. clear Hn.
    destruct (0 <? size data) eqn:Hd.
    + cbn [with_mediaRecorderRef mimeTypeRef_current mimeTypeRef chunksRef].
      rewrite size_rewrapped, Hd. cbn.
      split; [reflexivity |]. split; [reflexivity |].
      eexists. split; [reflexivity |]. cbn. rewrite orb_true_r. reflexivity.
    + cbn. rewrite app_nil_r, orb_false_r.
      split; [reflexivity |]. split; [reflexivity |]. eauto.
  - (* pause *)
    cbn [delivered]. rewrite app_nil_r. cbn. rewrite Hl.
    destruct t; cbn; still_in_progress.
  - (* resume *)
    cbn [delivered]. rewrite app_nil_r. cbn. rewrite Hl.
    destruct t; cbn; still_in_progress.
  - (* tick *)
    cbn [delivered]. rewrite app_nil_r. cbn.
    destruct t; cbn; still_in_progress.
Qed.

Lemma delivered_app (evs1 evs2 : list Event) :
  delivered (evs1 ++ evs2) = (delivered evs1 ++ delivered evs2)%list.
Proof.
  induction evs1 as [| ev evs1 IH]; cbn; [reflexivity |].
  destruct ev; cbn; rewrite ?IH; reflexivity.
Qed.

Lemma in_progress_run sup m evs : forall ds h,
  in_progress m ds h ->
  forallb (fun ev => in_session ev || is_delivery ev) evs = true ->
  in_progress m (ds ++ delivered evs) (run sup h evs).
Proof.
  induction evs as [| ev evs IH]; intros ds h Hp Hall.
  - cbn. rewrite app_nil_r. exact Hp.
  - cbn in Hall. apply andb_prop in Hall. destruct Hall as [Hev Hall].
    change (run sup h (ev :: evs)) with (run sup (step sup h ev) evs).
    change (ev :: evs) with ([ev] ++ evs)%list.
    rewrite delivered_app, app_assoc.
    apply IH; [| exact Hall].
    apply in_progress_step; [exact Hp |].
    left. destruct ev; cbn in Hev |- *; congruence.
Qed.

(** A call of [startRecording] that leaves the status [recording] has
    started a session: listeners attached, no chunk delivered yet. *)
Lemma started_in_progress sup attempts h0 tr h1 :
  startRecording sup attempts h0 = Some (tr, h1) ->
  status (state h1) = recording ->
  in_progress (AudioConst.getBestSupportedMimeType sup) [] h1.
Proof.
  rewrite startRecording_unfold. intros Hs Hrec.
  assert (Hdone : forall a g g', attempt sup a g = Done g' ->
            in_progress (AudioConst.getBestSupportedMimeType sup) [] g').
  { intros a g g' E. destruct (attempt_Done _ _ _ E) as (s & _ & _ & _ & _ & ->).
    split; [reflexivity |]. split; [reflexivity |].
    eexists. split; reflexivity. }
  destruct (attempt sup (attempts 0) h0) as [g1 | e0 g1] eqn:E0.
  { inversion Hs; subst. eapply Hdone; eassumption. }
  destruct (attempt sup (attempts 1) g1) as [g2 | e1 g2] eqn:E1.
  { inversion Hs; subst. eapply Hdone; eassumption. }
  destruct (attempt sup (attempts 2) g2) as [g3 | e2 g3] eqn:E2.
  { inversion Hs; subst. eapply Hdone; eassumption. }
  inversion Hs; subst. rewrite handleError_eq in Hrec. discriminate Hrec.
Qed.

(** The [stop] event of a session that was delivered a non-empty chunk. *)
Lemma stop_event_with_data sup m ds h :
  in_progress m ds h ->
  filter nonEmpty ds <> [] ->
  status (state (step sup h OnStop)) = stopped
  /\ recordingBlob (state (step sup h OnStop))
     = Some (newBlob (map (fun d => newBlob [d] m) (filter nonEmpty ds)) m)
  /\ error (state (step sup h OnStop)) = None.
Proof.
  intros (Hm & Hc & r & Hr & Hl) Hne.
  destruct (filter_cons_existsb ds Hne) as (Hex & d & cs & Hf & Hd).
  destruct h as [[sts rt rb bu er] dv lbl rr s cs0 t mm c f]; cbn in Hm, Hc, Hr.
  subst rr mm cs0.
  cbn [step dispatch mediaRecorderRef rec_with_rstate listeners].
  rewrite Hl, Hex. unfold handleStop.
  cbn [dataReceived negb chunksRef with_mediaRecorderRef mimeTypeRef_current mimeTypeRef].
  rewrite Hf. cbn [map List.length Nat.eqb].
  assert (Hsz : Nat.eqb (size (newBlob (newBlob [d] m :: map (fun d0 => newBlob [d0] m) cs) m)) 0
                = false).
  { apply Nat.eqb_neq. unfold size, newBlob. cbn. rewrite app_nil_r, length_app.
    unfold nonEmpty, size in Hd. apply Nat.ltb_lt in Hd. lia. }
  rewrite Hsz.
  destruct t; cbn; auto.
Qed.

(** The [stop] event of a session that was delivered no non-empty chunk:
    the no-data error, through [_handleError] and so through [reset]. *)
Lemma stop_event_without_data sup m ds h :
  in_progress m ds h ->
  filter nonEmpty ds = [] ->
  step sup h OnStop =
  {| state := {| status := idle; recordingTime := 0; recordingBlob := None;
                 blobUrl := None;
                 error := Some "No audio data was received during recording" |};
     devices := devices h; currentDeviceLabel := currentDeviceLabel h;
     mediaRecorderRef := None; mediaStreamRef := None; chunksRef := [];
     timerIntervalRef := None; mimeTypeRef := mimeTypeRef h;
     cleanupRef := false; fresh := fresh h |}.
Proof.
  intros (Hm & Hc & r & Hr & Hl) He.
  pose proof (filter_nil_existsb ds He) as Hex.
  destruct h as [[sts rt rb bu er] dv lbl rr s cs0 t mm c f]; cbn in Hm, Hc, Hr.
  subst rr mm cs0.
  cbn [step dispatch mediaRecorderRef rec_with_rstate listeners].
  rewrite Hl, Hex. unfold handleStop. cbn [dataReceived negb].
  rewrite handleError_eq. reflexivity.
Qed.

Lemma forallb_weaken (f g : Event -> bool) (evs : list Event) :
  (forall ev, f ev = true -> g ev = true) ->
  forallb f evs = true -> forallb g evs = true.
Proof.
  intros Hfg. induction evs as [| ev evs IH]; cbn; [reflexivity |].
  intros H. apply andb_prop in H. destruct H as [H1 H2].
  rewrite (Hfg _ H1), (IH H2). reflexivity.
Qed.

(** A whole session up to, but not including, the [stop] event. *)
Lemma session_in_progress sup attempts h0 tr h1 evs1 evs2 :
  startRecording sup attempts h0 = Some (tr, h1) ->
  status (state h1) = recording ->
  forallb in_session evs1 = true ->
  forallb is_delivery evs2 = true ->
  in_progress (AudioConst.getBestSupportedMimeType sup)
    (delivered (evs1 ++ evs2))
    (run sup h1 (evs1 ++ [CallStopRecording] ++ evs2)).
Proof.
  intros Hs Hrec H1 H2.
  pose proof (started_in_progress _ _ _ Hs Hrec) as P0.
  unfold run. rewrite !fold_left_app. fold (run sup h1 evs1).
  cbn [fold_left].
  fold (run sup (step sup (run sup h1 evs1) CallStopRecording) evs2).
  rewrite delivered_app.
  apply in_progress_run.
  - replace (delivered evs1) with (([] ++ delivered evs1) ++ delivered [CallStopRecording])%list
      by (cbn; rewrite app_nil_r; reflexivity).
    apply in_progress_step; [| right; reflexivity].
    apply in_progress_run; [exact P0 |].
    eapply forallb_weaken; [| exact H1]. intros ev E. rewrite E. reflexivity.
  - eapply forallb_weaken; [| exact H2]. intros ev E. rewrite E. apply orb_true_r.
Qed.

(** C1. In a session begun by a successful [startRecording], made of any
    deliveries, pauses and resumes, and ended by [stopRecording], the last
    deliveries and the [stop] event, the blob assembled on stop is the
    concatenation, in delivery order, of the non-empty chunks delivered;
    its size is the sum of their sizes, and the status is [stopped]. *)
Theorem C1_assembled_blob_is_concatenation_of_chunks :
  forall sup attempts h0 tr h1 evs1 evs2,
    startRecording sup attempts h0 = Some (tr, h1) ->
    status (state h1) = recording ->
    forallb in_session evs1 = true ->
    forallb is_delivery evs2 = true ->
    filter nonEmpty (delivered (evs1 ++ evs2)) <> [] ->
    let hf := run sup h1 (evs1 ++ [CallStopRecording] ++ evs2 ++ [OnStop]) in
    let cs := filter nonEmpty (delivered (evs1 ++ evs2)) in
    status (state hf) = stopped
    /\ exists blob,
        recordingBlob (state hf) = Some blob
        /\ bytes blob = List.concat (map bytes cs)
        /\ size blob = list_sum (map size cs).
Proof.
  intros sup attempts h0 tr h1 evs1 evs2 Hs Hrec H1 H2 Hne hf cs.
  pose proof (session_in_progress _ _ _ evs1 evs2 Hs Hrec H1 H2) as P.
  assert (Ehf : hf = step sup (run sup h1 (evs1 ++ [CallStopRecording] ++ evs2)) OnStop).
  { subst hf. unfold run. rewrite !app_assoc, fold_left_app. reflexivity. }
  destruct (stop_event_with_data sup P Hne) as (Hst & Hb & _).
  rewrite Ehf. split; [exact Hst |].
  eexists. split; [exact Hb |].
  fold cs. split.
  - cbn [bytes newBlob]. apply bytes_rewrapped.
  - unfold size at 1. cbn [bytes newBlob]. rewrite bytes_rewrapped. apply size_concat.
Qed.

(** Three chunks of 10, 20 and 30 bytes, an empty one, a pause and a
    resume: 60 bytes, [stopped]. *)
Lemma C1_witness :
  let hf := run allSupported
              (run allSupported initial [CallStartRecording (fun _ => okAttempt)])
              ([OnDataAvailable (chunk 10); CallTogglePauseResume; OnPause;
                OnDataAvailable (chunk 0); CallTogglePauseResume; OnResume;
                OnDataAvailable (chunk 20)]
               ++ [CallStopRecording] ++ [OnDataAvailable (chunk 30)] ++ [OnStop]) in
  status (state hf) = stopped
  /\ exists blob,
      recordingBlob (state hf) = Some blob
      /\ bytes blob = List.concat (map bytes [chunk 10; chunk 20; chunk 30])
      /\ size blob = list_sum (map size [chunk 10; chunk 20; chunk 30]).
Proof.
  refine (@C1_assembled_blob_is_concatenation_of_chunks
            allSupported (fun _ => okAttempt) initial [Acquire] _
            [OnDataAvailable (chunk 10); CallTogglePauseResume; OnPause;
             OnDataAvailable (chunk 0); CallTogglePauseResume; OnResume;
             OnDataAvailable (chunk 20)]
            [OnDataAvailable (chunk 30)] _ _ _ _ _);
    try reflexivity.
  discriminate.
Defined.

(** Scenario A: start, chunks of 10, 20 and 30 bytes, stop. *)
Lemma scenario_A :
  let hf := run allSupported initial
              [CallStartRecording (fun _ => okAttempt);
               OnDataAvailable (chunk 10); OnDataAvailable (chunk 20);
               OnDataAvailable (chunk 30); CallStopRecording; OnStop] in
  status (state hf) = stopped
  /\ option_map size (recordingBlob (state hf)) = Some 60.
Proof. split; reflexivity. Qed.

(** C2. In a session in which no non-empty chunk was delivered, the
    finalize step that [stopRecording] triggers throws the no-data error:
    the hook is fully reset and left [idle] with the error recorded, never
    [stopped], and with no assembled blob. *)
Theorem C2_stop_without_data_resets_to_idle :
  forall sup attempts h0 tr h1 evs1 evs2,
    startRecording sup attempts h0 = Some (tr, h1) ->
    status (state h1) = recording ->
    forallb in_session evs1 = true ->
    forallb is_delivery evs2 = true ->
    filter nonEmpty (delivered (evs1 ++ evs2)) = [] ->
    let hf := run sup h1 (evs1 ++ [CallStopRecording] ++ evs2 ++ [OnStop]) in
    state hf = {| status := idle; recordingTime := 0; recordingBlob := None;
                  blobUrl := None;
                  error := Some "No audio data was received during recording" |}
    /\ status (state hf) <> stopped
    /\ recordingBlob (state hf) = None
    /\ mediaRecorderRef hf = None /\ mediaStreamRef hf = None
    /\ chunksRef hf = [] /\ timerIntervalRef hf = None /\ cleanupRef hf = false.
Proof.
  intros sup attempts h0 tr h1 evs1 evs2 Hs Hrec H1 H2 He hf.
  pose proof (session_in_progress _ _ _ evs1 evs2 Hs Hrec H1 H2) as P.
  assert (Ehf : hf = step sup (run sup h1 (evs1 ++ [CallStopRecording] ++ evs2)) OnStop).
  { subst hf. unfold run. rewrite !app_assoc, fold_left_app. reflexivity. }
  rewrite Ehf, (stop_event_without_data sup P He). cbn.
  repeat split; try reflexivity. discriminate.
Qed.

(** A session with a pause, a resume and only empty chunks. *)
Lemma C2_witness :
  let hf := run allSupported
              (run allSupported initial [CallStartRecording (fun _ => okAttempt)])
              ([OnDataAvailable (chunk 0); CallTogglePauseResume; OnPause;
                CallTogglePauseResume; OnResume]
               ++ [CallStopRecording] ++ [OnDataAvailable (chunk 0)] ++ [OnStop]) in
  state hf = {| status := idle; recordingTime := 0; recordingBlob := None;
                blobUrl := None;
                error := Some "No audio data was received during recording" |}
  /\ status (state hf) <> stopped
  /\ recordingBlob (state hf) = None
  /\ mediaRecorderRef hf = None /\ mediaStreamRef hf = None
  /\ chunksRef hf = [] /\ timerIntervalRef hf = None /\ cleanupRef hf = false.
Proof.
  refine (@C2_stop_without_data_resets_to_idle
            allSupported (fun _ => okAttempt) initial [Acquire] _
            [OnDataAvailable (chunk 0); CallTogglePauseResume; OnPause;
             CallTogglePauseResume; OnResume]
            [OnDataAvailable (chunk 0)] _ _ _ _ _);
    reflexivity.
Defined.

End RecorderFacts.

(* ================================================================== *)
(** * Properties of the playback engine *)
(* ================================================================== *)
Module PlayerFacts.
Import Player.
Open Scope string_scope.
Open Scope Q_scope.

(** ** transition and notify touch the state and the counter only *)

Lemma state_transition us p : state (transition us p) = spread (state p) us.
Proof. unfold transition. destruct (negb _); reflexivity. Qed.

Lemma context_transition us p : context (transition us p) = context p.
Proof. unfold transition. destruct (negb _); reflexivity. Qed.

Lemma buffer_transition us p : buffer (transition us p) = buffer p.
Proof. unfold transition. destruct (negb _); reflexivity. Qed.

Lemma source_transition us p : source (transition us p) = source p.
Proof. unfold transition. destruct (negb _); reflexivity. Qed.

Lemma timeUpdateId_transition us p : timeUpdateId (transition us p) = timeUpdateId p.
Proof. unfold transition. destruct (negb _); reflexivity. Qed.

Lemma stableSnapshot_transition us p :
  stableSnapshot (transition us p) = stableSnapshot p.
Proof. unfold transition. destruct (negb _); reflexivity. Qed.

Lemma context_stopTimeUpdates p : context (stopTimeUpdates p) = context p.
Proof. unfold stopTimeUpdates. destruct (timeUpdateId p); reflexivity. Qed.

Lemma buffer_stopTimeUpdates p : buffer (stopTimeUpdates p) = buffer p.
Proof. unfold stopTimeUpdates. destruct (timeUpdateId p); reflexivity. Qed.

Lemma state_stopTimeUpdates p : state (stopTimeUpdates p) = state p.
Proof. unfold stopTimeUpdates. destruct (timeUpdateId p); reflexivity. Qed.

Lemma timeUpdateId_stopTimeUpdates p : timeUpdateId (stopTimeUpdates p) = None.
Proof. unfold stopTimeUpdates. destruct (timeUpdateId p) eqn:E; [reflexivity | exact E]. Qed.

(** ** getSnapshot publishes the state it reads *)

Lemma snapshot_json_eqb_true a b :
  snapshot_json_eqb a b = true ->
  s_isPlaying a = s_isPlaying b /\ s_isReady a = s_isReady b
  /\ s_currentTime a == s_currentTime b /\ s_duration a == s_duration b.
Proof.
  unfold snapshot_json_eqb. intros H.
  apply andb_prop in H. destruct H as [H H4].
  apply andb_prop in H. destruct H as [H H3].
  apply andb_prop in H. destruct H as [H1 H2].
  apply Bool.eqb_prop in H1. apply Bool.eqb_prop in H2.
  apply Qeq_bool_iff in H3. apply Qeq_bool_iff in H4. auto.
Qed.

Lemma getSnapshot_reads p :
  let s := fst (getSnapshot p) in
  s_isPlaying s = isPlaying (state p)
  /\ s_isReady s = isReady (state p)
  /\ s_currentTime s == getCurrentTime p
  /\ s_duration s == match buffer p with
                     | Some b => buf_duration b
                     | None => 0
                     end.
Proof.
  cbv zeta. unfold getSnapshot.
  set (new := {| s_isPlaying := isPlaying (state p); s_isReady := isReady (state p);
                 s_currentTime := getCurrentTime p;
                 s_duration := match buffer p with
                               | Some b => if Qeq_bool (buf_duration b) 0 then 0
                                           else buf_duration b
                               | None => 0
                               end |}).
  assert (Hd : s_duration new == match buffer p with
                                 | Some b => buf_duration b
                                 | None => 0
                                 end).
  { subst new. cbn. destruct (buffer p) as [b|]; [| reflexivity].
    destruct (Qeq_bool (buf_duration b) 0) eqn:E; [| reflexivity].
    apply Qeq_bool_iff in E. symmetry. exact E. }
  destruct (snapshot_json_eqb (stableSnapshot p) new) eqn:E; cbn [negb fst].
  - destruct (snapshot_json_eqb_true _ _ E) as (E1 & E2 & E3 & E4).
    rewrite E1, E2, E3, E4. repeat split; try reflexivity. exact Hd.
  - cbn. repeat split; try reflexivity. exact Hd.
Qed.

(** ** A buffer is never held without a context *)

Ltac ctx_simpl :=
  repeat (cbn; rewrite ?context_transition, ?buffer_transition,
                 ?context_stopTimeUpdates, ?buffer_stopTimeUpdates).

Ltac ctx_done Inv :=
  ctx_simpl; try reflexivity; try discriminate; try exact Inv;
  let Hc := fresh "Hc" in
  intros Hc; try reflexivity; try congruence;
  try (apply Inv; congruence);
  try (specialize (Inv Hc); congruence).

Lemma step_keeps_context p ev :
  (context p = None -> buffer p = None) ->
  (context (step p ev) = None -> buffer (step p ev) = None).
Proof.
  intros Inv.
  destruct ev as [l | o | | time | o | | | cb | cb | | | | dt]; cbn [step].
  - (* loadAudio *)
    unfold loadAudio, loadAudio_catch.
    destruct (context p) as [c|] eqn:Ec;
      [destruct (suspendRejects l) |]; try destruct (fetched l); ctx_done Inv.
  - (* play *)
    unfold play, handleError, setupSource.
    destruct (context p) as [c|] eqn:Ec; [| ctx_done Inv].
    destruct (buffer p) as [b|] eqn:Eb; [| ctx_done Inv].
    destruct (isPlaying (state p)); [ctx_done Inv |].
    destruct (resumeRejects o); [ctx_done Inv |].
    cbn. rewrite Eb. destruct (startThrows o); ctx_done Inv.
  - (* pause *)
    unfold pause, pause_begin, pause_finish.
    destruct (context p) as [c|] eqn:Ec; [| ctx_done Inv].
    destruct (negb (isPlaying (state p))); ctx_done Inv.
  - (* seek *)
    unfold seek, startPlayback, setupSource.
    destruct (buffer p) as [b|] eqn:Eb; [| ctx_done Inv].
    destruct (context p) as [c|] eqn:Ec; [| specialize (Inv eq_refl); discriminate].
    destruct (isPlaying (state p)); destruct (source p); cbn; rewrite ?Ec, ?Eb;
      ctx_done Inv.
  - (* toggle *)
    unfold toggle. destruct (isPlaying (state p)) eqn:Ep; cbn [fst].
    + unfold pause, pause_begin, pause_finish.
      destruct (context p) as [c|] eqn:Ec; [| ctx_done Inv].
      rewrite Ep. ctx_done Inv.
    + unfold play, handleError, setupSource.
      destruct (context p) as [c|] eqn:Ec; [| ctx_done Inv].
      destruct (buffer p) as [b|] eqn:Eb; [| ctx_done Inv].
      rewrite Ep.
      destruct (resumeRejects o); [ctx_done Inv |].
      cbn. rewrite Eb. destruct (startThrows o); ctx_done Inv.
  - (* dispose *)
    intros _. unfold dispose. destruct (pause_begin p) as [q g]. reflexivity.
  - (* getSnapshot *)
    unfold getSnapshot. cbn [snd]. destruct (negb _); exact Inv.
  - unfold subscribe. destruct (existsb _ _); exact Inv.
  - exact Inv.
  - (* ended *)
    unfold onended. destruct (buffer p) as [b|] eqn:Eb; [| ctx_done Inv].
    destruct (negb _); ctx_done Inv.
  - (* frame *)
    unfold updateTime. destruct (timeUpdateId p); [| exact Inv].
    destruct (isPlaying (state p)); [| exact Inv].
    unfold updateCurrentTime. destruct (context p) as [c|] eqn:Ec; ctx_done Inv.
  - (* the suspended pause goes on *)
    unfold pause_settles. destruct (suspendedPauses p); [exact Inv |].
    unfold pause_finish. ctx_done Inv.
  - (* clock *)
    unfold advance. destruct (context p) as [c|] eqn:Ec; [| ctx_done Inv].
    destruct (ctx_state c); rewrite ?Ec; try discriminate.
    destruct (Qle_bool 0 dt); cbn; rewrite ?Ec; discriminate.
Qed.

Lemma reachable_context p :
  reachable p -> context p = None -> buffer p = None.
Proof.
  induction 1 as [| p ev Hr IH]; [reflexivity |].
  apply step_keeps_context. exact IH.
Qed.

Lemma player_reachable_run p evs : reachable p -> reachable (run p evs).
Proof.
  revert p. induction evs as [| ev evs IH]; intros p Hr; cbn; [exact Hr |].
  apply IH. constructor. exact Hr.
Qed.

(** ** loadAudio *)

Lemma loadAudio_catch_facts e q :
  context (loadAudio_catch e q) = None
  /\ buffer (loadAudio_catch e q) = None
  /\ isReady (state (loadAudio_catch e q)) = false
  /\ isPlaying (state (loadAudio_catch e q)) = false
  /\ offset (state (loadAudio_catch e q)) = 0
  /\ error (state (loadAudio_catch e q)) = Some e.
Proof.
  unfold loadAudio_catch.
  rewrite context_transition, buffer_transition, state_transition.
  destruct (context q) eqn:E; cbn; rewrite ?E; repeat split; reflexivity.
Qed.

(** When the [try] block of [loadAudio] throws, the call is its [catch]
    block, and it rejects with nothing. *)
Lemma loadAudio_failure l p e :
  load_error l p = Some e ->
  exists q, loadAudio l p = (loadAudio_catch e q, None).
Proof.
  unfold load_error, loadAudio.
  destruct (context p) as [c|]; [destruct (suspendRejects l) as [e'|] |];
    try (intros H; inversion H; subst; eauto; fail);
    destruct (fetched l); intros H; inversion H; subst; eauto.
Qed.

Lemma play_without_context o p :
  context p = None -> play o p = (p, None).
Proof. unfold play. intros ->. reflexivity. Qed.

(** C4, as the code has it. When the fetch or the decode of [loadAudio]
    fails, the call itself does not fail: it rejects with nothing and keeps
    the error in the internal state. The context is closed and set to null,
    the buffer is set to null, the published state is not ready with zero
    duration; after that [play()] changes nothing. *)
Theorem C4_failed_load_tears_down_and_swallows :
  forall l p e,
    load_error l p = Some e ->
    let p' := fst (loadAudio l p) in
    snd (loadAudio l p) = None
    /\ error (state p') = Some e
    /\ context p' = None /\ buffer p' = None
    /\ isReady (state p') = false
    /\ s_isReady (fst (getSnapshot p')) = false
    /\ s_isPlaying (fst (getSnapshot p')) = false
    /\ s_duration (fst (getSnapshot p')) == 0
    /\ s_currentTime (fst (getSnapshot p')) == 0
    /\ forall o, play o p' = (p', None).
Proof.
  intros l p e He p'. subst p'.
  destruct (loadAudio_failure l p He) as [q ->]. cbn [fst snd].
  destruct (loadAudio_catch_facts e q) as (Hc & Hb & Hr & Hp & Ho & Herr).
  destruct (getSnapshot_reads (loadAudio_catch e q)) as (S1 & S2 & S3 & S4).
  split; [reflexivity |]. split; [exact Herr |].
  split; [exact Hc |]. split; [exact Hb |]. split; [exact Hr |].
  split; [rewrite S2; exact Hr |]. split; [rewrite S1; exact Hp |].
  split; [rewrite S4, Hb; reflexivity |].
  split.
  - rewrite S3. unfold getCurrentTime. rewrite Hp, Ho. reflexivity.
  - intros o. apply play_without_context. exact Hc.
Qed.

(** Scenario B: the fetch rejects. *)
Lemma C4_witness :
  let p' := fst (loadAudio failingFetch initial) in
  snd (loadAudio failingFetch initial) = None
  /\ error (state p') = Some (ErrorObj "Failed to fetch")
  /\ context p' = None /\ buffer p' = None
  /\ isReady (state p') = false
  /\ s_isReady (fst (getSnapshot p')) = false
  /\ s_isPlaying (fst (getSnapshot p')) = false
  /\ s_duration (fst (getSnapshot p')) == 0
  /\ s_currentTime (fst (getSnapshot p')) == 0
  /\ forall o, play o p' = (p', None).
Proof.
  apply (@C4_failed_load_tears_down_and_swallows failingFetch initial
           (ErrorObj "Failed to fetch")).
  reflexivity.
Defined.

(** The call whose fetch rejects does not reject: no error reaches the
    caller, with the code [LOAD_ERROR] or any other. *)
Lemma C4_counterexample :
  load_error failingFetch initial = Some (ErrorObj "Failed to fetch")
  /\ snd (loadAudio failingFetch initial) = None
  /\ forall msg,
       snd (loadAudio failingFetch initial)
       <> Some {| message := msg; code := LOAD_ERROR |}.
Proof.
  split; [reflexivity |]. split; [reflexivity |]. intros msg. discriminate.
Qed.

(** ** seek *)

Lemma buf_duration_nonneg (b : AudioBuffer) : 0 <= buf_duration b.
Proof. unfold buf_duration, Qle. cbn. lia. Qed.

(** What [seek] computes is the clamp of the specification. *)
Lemma seek_offset_is_clamp (o d : Q) :
  0 <= d -> Qmax 0 (Qmin o d) == clamp o 0 d.
Proof.
  intros Hd. unfold clamp.
  destruct (Q.max_spec 0 (Qmin o d)) as [[H1 H2] | [H1 H2]];
    destruct (Q.min_spec o d) as [[H3 H4] | [H3 H4]];
    rewrite H2; rewrite ?H4 in *;
    destruct (Qle_bool o 0) eqn:E1;
    try (apply Qle_bool_iff in E1);
    try (assert (~ o <= 0) by (rewrite <- Qle_bool_iff; congruence));
    destruct (Qle_bool d o) eqn:E2;
    try (apply Qle_bool_iff in E2);
    try (assert (~ d <= o) by (rewrite <- Qle_bool_iff; congruence));
    try reflexivity; lra.
Qed.

Lemma clamp_in_range (o d : Q) :
  0 <= d ->
  0 <= clamp o 0 d /\ clamp o 0 d <= d
  /\ (0 <= o -> o <= d -> clamp o 0 d == o).
Proof.
  intros Hd. unfold clamp.
  destruct (Qle_bool o 0) eqn:E1;
    try (apply Qle_bool_iff in E1);
    try (assert (~ o <= 0) by (rewrite <- Qle_bool_iff; congruence));
    destruct (Qle_bool d o) eqn:E2;
    try (apply Qle_bool_iff in E2);
    try (assert (~ d <= o) by (rewrite <- Qle_bool_iff; congruence));
    repeat split; intros; lra.
Qed.

(** [seek] on a loaded engine that is not playing. *)
Lemma seek_not_playing o p b :
  buffer p = Some b -> isPlaying (state p) = false ->
  offset (state (seek o p)) = Qmax 0 (Qmin o (buf_duration b))
  /\ isPlaying (state (seek o p)) = false
  /\ notifications (seek o p) = S (notifications p).
Proof.
  intros Eb Ep. unfold seek. rewrite Eb, Ep.
  destruct (source p); cbn; rewrite ?Ep; auto.
Qed.

(** [seek] on a loaded engine that is playing: a new node is started at the
    new offset, and the clock reference is the present clock. *)
Lemma seek_playing o p b c :
  buffer p = Some b -> context p = Some c -> isPlaying (state p) = true ->
  offset (state (seek o p)) = Qmax 0 (Qmin o (buf_duration b))
  /\ isPlaying (state (seek o p)) = true
  /\ startTime (state (seek o p)) = ctx_currentTime c
  /\ context (seek o p) = Some c
  /\ source (seek o p) = Some {| started := Some (Qmax 0 (Qmin o (buf_duration b))) |}.
Proof.
  intros Eb Ec Ep. unfold seek, startPlayback, setupSource. rewrite Eb, Ep.
  destruct (source p); cbn; rewrite ?Ec, ?Eb; cbn;
    rewrite state_transition, context_transition, source_transition; cbn;
    rewrite ?Ec; auto.
Qed.

(** C5. On a loaded engine, [seek(o)] sets the offset to [o] clamped to the
    interval from 0 to the duration, and a [getSnapshot] that follows at once
    reports that value as [currentTime], playing or not; when playing, a
    node is restarted at the new offset and [isPlaying] stays true. With no
    buffer [seek] changes nothing. *)
Theorem C5_seek_then_snapshot_gives_clamped_time :
  forall p o,
    (buffer p = None -> seek o p = p)
    /\ (forall b,
           reachable p -> buffer p = Some b ->
           let p' := seek o p in
           offset (state p') == clamp o 0 (buf_duration b)
           /\ s_currentTime (fst (getSnapshot p')) == clamp o 0 (buf_duration b)
           /\ isPlaying (state p') = isPlaying (state p)
           /\ s_isPlaying (fst (getSnapshot p')) = isPlaying (state p)
           /\ (isPlaying (state p) = true ->
               exists x, source p' = Some {| started := Some x |}
                         /\ x == clamp o 0 (buf_duration b))).
Proof.
  intros p o. split.
  - intros Eb. unfold seek. rewrite Eb. reflexivity.
  - intros b Hr Eb p'. subst p'.
    pose proof (seek_offset_is_clamp o (buf_duration_nonneg b)) as Hclamp.
    destruct (getSnapshot_reads (seek o p)) as (S1 & _ & S3 & _).
    destruct (isPlaying (state p)) eqn:Ep.
    + destruct (context p) as [c|] eqn:Ec;
        [| rewrite (reachable_context Hr Ec) in Eb; discriminate].
      destruct (seek_playing o p Eb Ec Ep) as (Ho & Hp & Hs & Hc & Hsrc).
      split; [rewrite Ho; exact Hclamp |].
      split.
      { rewrite S3. unfold getCurrentTime. rewrite Hp, Hc, Hs, Ho. cbn [negb].
        rewrite <- Hclamp. ring. }
      split; [exact Hp |]. split; [rewrite S1; exact Hp |].
      intros _. eexists. split; [exact Hsrc | exact Hclamp].
    + destruct (seek_not_playing o p Eb Ep) as (Ho & Hp & _).
      split; [rewrite Ho; exact Hclamp |].
      split.
      { rewrite S3. unfold getCurrentTime. rewrite Hp, Ho. cbn [negb]. exact Hclamp. }
      split; [exact Hp |]. split; [rewrite S1; exact Hp |].
      discriminate.
Qed.

(** Seeking to 12 s in a ten-second clip that is playing at 3 s. *)
Lemma C5_witness :
  let p := run initial [CallLoadAudio tenSeconds; CallPlay smoothly; OnClock 3] in
  let p' := seek 12 p in
  offset (state p') == clamp 12 0 (buf_duration tenSecondClip)
  /\ s_currentTime (fst (getSnapshot p')) == clamp 12 0 (buf_duration tenSecondClip)
  /\ isPlaying (state p') = isPlaying (state p)
  /\ s_isPlaying (fst (getSnapshot p')) = isPlaying (state p)
  /\ (isPlaying (state p) = true ->
      exists x, source p' = Some {| started := Some x |}
                /\ x == clamp 12 0 (buf_duration tenSecondClip)).
Proof.
  cbv zeta.
  refine (proj2 (C5_seek_then_snapshot_gives_clamped_time
                   (run initial [CallLoadAudio tenSeconds; CallPlay smoothly; OnClock 3]) 12)
            tenSecondClip _ _).
  - apply player_reachable_run. constructor.
  - reflexivity.
Defined.

(** The same seek, evaluated: offset and reported time are 10 s. *)
Lemma seek_past_the_end :
  let p := run initial [CallLoadAudio tenSeconds; CallPlay smoothly; OnClock 3] in
  buffer p = Some tenSecondClip
  /\ buf_duration tenSecondClip == 10
  /\ isPlaying (state p) = true
  /\ offset (state (seek 12 p)) == 10
  /\ s_currentTime (fst (getSnapshot (seek 12 p))) == 10
  /\ isPlaying (state (seek 12 p)) = true.
Proof. cbv zeta. repeat split; vm_compute; reflexivity. Qed.

(** ** The end of playback *)

(** [pause()] on an engine that is playing. *)
Lemma pause_playing p c :
  context p = Some c -> isPlaying (state p) = true ->
  offset (state (pause p)) = getCurrentTime p
  /\ isPlaying (state (pause p)) = false
  /\ isReady (state (pause p)) = true
  /\ timeUpdateId (pause p) = None
  /\ source (pause p) = None.
Proof.
  intros Ec Ep. unfold pause, pause_begin, pause_finish. rewrite Ec, Ep. cbn [negb].
  rewrite state_transition, timeUpdateId_transition, source_transition.
  rewrite timeUpdateId_stopTimeUpdates, state_stopTimeUpdates.
  unfold getCurrentTime at 1. rewrite state_stopTimeUpdates, context_stopTimeUpdates.
  unfold stopTimeUpdates, getCurrentTime. cbn. rewrite Ep, Ec. cbn.
  destruct (timeUpdateId p); cbn; auto.
Qed.

(** C7, as the code has it. When a node signals completion and the derived
    current time is at or beyond the duration minus 0.1 s, the engine sets
    the offset to 0 and [isPlaying] to false, drops the node, stops the
    time-tracking loop and notifies. When the derived time is below that, the
    signal changes nothing: this is how a stop caused by [pause()] or
    [seek()] is told from the end of the clip. [pause()] freezes the offset
    at the derived time. *)
Theorem C7_completion_resets_only_near_the_end :
  forall p b,
    buffer p = Some b ->
    (buf_duration b - (1 # 10) <= getCurrentTime p ->
       offset (state (onended p)) = 0
       /\ isPlaying (state (onended p)) = false
       /\ source (onended p) = None
       /\ timeUpdateId (onended p) = None
       /\ notifications (onended p) = S (notifications p))
    /\ (getCurrentTime p < buf_duration b - (1 # 10) -> onended p = p)
    /\ (forall c, context p = Some c -> isPlaying (state p) = true ->
          offset (state (pause p)) = getCurrentTime p
          /\ isPlaying (state (pause p)) = false
          /\ timeUpdateId (pause p) = None).
Proof.
  intros p b Eb. split; [| split].
  - intros Hge. unfold onended. rewrite Eb.
    apply Qle_bool_iff in Hge. rewrite Hge. cbn [negb].
    unfold stopTimeUpdates. cbn.
    destruct (timeUpdateId p) eqn:Et; cbn; rewrite ?Et; auto.
  - intros Hlt. unfold onended. rewrite Eb.
    destruct (Qle_bool (buf_duration b - (1 # 10)) (getCurrentTime p)) eqn:E;
      [| reflexivity].
    apply Qle_bool_iff in E. lra.
  - intros c Ec Ep.
    destruct (pause_playing p Ec Ep) as (H1 & H2 & _ & H4 & _). auto.
Qed.

(** Scenario C: a ten-second clip played to 9.95 s, then the completion
    signal. *)
Lemma C7_witness :
  let p := run initial [CallLoadAudio tenSeconds; CallPlay smoothly; OnClock (995 # 100)] in
  offset (state (onended p)) = 0
  /\ isPlaying (state (onended p)) = false
  /\ source (onended p) = None
  /\ timeUpdateId (onended p) = None
  /\ notifications (onended p) = S (notifications p).
Proof.
  cbv zeta.
  refine (proj1 (@C7_completion_resets_only_near_the_end
                   (run initial [CallLoadAudio tenSeconds; CallPlay smoothly;
                                 OnClock (995 # 100)])
                   tenSecondClip _) _).
  - reflexivity.
  - vm_compute. discriminate.
Defined.

(** A pause at 9.95 s of a ten-second clip, then the completion signal of
    the node that the pause stopped: the frozen offset is reset to 0. The
    same after a seek to 9.95 s while playing: the signal of the node that
    the seek stopped ends the playback that the seek restarted. *)
Lemma C7_counterexample :
  let p := run initial [CallLoadAudio tenSeconds; CallPlay smoothly;
                        OnClock (995 # 100); CallPause] in
  let q := run initial [CallLoadAudio tenSeconds; CallPlay smoothly;
                        OnClock 1; CallSeek (995 # 100)] in
  (offset (state p) == 995 # 100
   /\ isPlaying (state p) = false
   /\ offset (state (step p OnEnded)) = 0
   /\ notifications (step p OnEnded) = S (notifications p))
  /\ (offset (state q) == 995 # 100
      /\ isPlaying (state q) = true
      /\ offset (state (step q OnEnded)) = 0
      /\ isPlaying (state (step q OnEnded)) = false).
Proof. cbv zeta. repeat split; vm_compute; reflexivity. Qed.

(** ** dispose *)

Lemma dispose_eq p :
  dispose p =
  {| state := defaultState (id (state p)); context := None;
     source := if match context p with
                  | Some _ => isPlaying (state p)
                  | None => false
                  end
               then None else source p;
     buffer := None; subscribers := subscribers p; lastSnapshot := None;
     stableSnapshot := defaultSnapshot; timeUpdateId := None;
     notifications := notifications p; nextFrame := nextFrame p;
     suspendedPauses :=
       if match context p with
          | Some _ => isPlaying (state p)
          | None => false
          end
       then S (suspendedPauses p) else suspendedPauses p |}.
Proof.
  unfold dispose, pause_begin.
  destruct p as [st [c|] src b subs ls ss [t|] n nf sp]; cbn;
    try destruct (isPlaying st); reflexivity.
Qed.

Lemma dispose_idempotent p : dispose (dispose p) = dispose p.
Proof. rewrite !dispose_eq. cbn. reflexivity. Qed.

(** The body of [pause()] that [dispose] left at its [await] goes on after
    [dispose] has returned, and marks the disposed engine ready. *)
Remark dispose_while_playing_then_pause_settles p c :
  context p = Some c -> isPlaying (state p) = true ->
  isReady (state (dispose p)) = false
  /\ isReady (state (pause_settles (dispose p))) = true.
Proof.
  intros Ec Ep. rewrite dispose_eq, Ec, Ep. cbn.
  unfold pause_finish. rewrite state_transition. cbn. auto.
Qed.

End PlayerFacts.

(* ================================================================== *)
(** * Releasing twice *)
(* ================================================================== *)
Module ReleaseFacts.

(** C8. [releaseResources()] and [dispose()] are total functions with no
    error result, and calling either a second time right after the first
    leaves what the first call left: the cleared idle controller, and the
    engine at its not-ready defaults. This holds from every state, reachable
    or not. *)
Theorem C8_release_and_dispose_are_idempotent :
  (forall h : Recorder.Hook,
      Recorder.releaseResources (Recorder.releaseResources h)
      = Recorder.releaseResources h
      /\ Recorder.state (Recorder.releaseResources h) = Recorder.INITIAL_STATE
      /\ Recorder.mediaRecorderRef (Recorder.releaseResources h) = None
      /\ Recorder.mediaStreamRef (Recorder.releaseResources h) = None
      /\ Recorder.chunksRef (Recorder.releaseResources h) = []
      /\ Recorder.timerIntervalRef (Recorder.releaseResources h) = None
      /\ Recorder.cleanupRef (Recorder.releaseResources h) = false)
  /\ (forall p : Player.AudioPlayer,
         Player.dispose (Player.dispose p) = Player.dispose p
         /\ Player.state (Player.dispose p)
            = Player.defaultState (Player.id (Player.state p))
         /\ Player.stableSnapshot (Player.dispose p) = Player.defaultSnapshot
         /\ fst (Player.getSnapshot (Player.dispose p)) = Player.defaultSnapshot
         /\ Player.context (Player.dispose p) = None
         /\ Player.buffer (Player.dispose p) = None
         /\ Player.timeUpdateId (Player.dispose p) = None).
Proof.
  split.
  - intros h. unfold Recorder.releaseResources.
    split; [apply RecorderFacts.reset_idempotent |].
    rewrite RecorderFacts.reset_eq. cbn. repeat split; reflexivity.
  - intros p.
    split; [apply PlayerFacts.dispose_idempotent |].
    rewrite PlayerFacts.dispose_eq. cbn. repeat split; reflexivity.
Qed.

End ReleaseFacts.

(* ================================================================== *)
(** * More on the encoding-format table *)
(* ================================================================== *)
Module AudioConstMore.
Import AudioConst.
Import Invariants.
Open Scope string_scope.

Lemma isSupportedMimeType_In (m : string) :
  isSupportedMimeType m = true <-> In m (keys AUDIO_CONFIGS).
Proof.
  unfold isSupportedMimeType. rewrite existsb_exists. split.
  - intros (k & Hk & E). apply String.eqb_eq in E. subst. exact Hk.
  - intros H. exists m. split; [exact H | apply String.eqb_refl].
Qed.

Lemma extension_of_key (m : string) :
  In m (keys AUDIO_CONFIGS) ->
  exists c, lookup m AUDIO_CONFIGS = Some c
            /\ getFileExtensionOrThrow m = Ok (extension c).
Proof.
  intros H. destruct (AudioConstFacts.key_cases H) as [-> | [-> | [-> | ->]]];
    eexists; split; reflexivity.
Qed.

(** X1. [getFileExtensionOrThrow] returns an extension exactly for the keys
    of the table, the one the table gives; for every other string it throws
    "Formato no soportado: " followed by that string. *)
Theorem X1_extension_of_a_key_or_throw :
  forall m : string,
    (In m (keys AUDIO_CONFIGS) ->
     exists c, lookup m AUDIO_CONFIGS = Some c
               /\ getFileExtensionOrThrow m = Ok (extension c))
    /\ (~ In m (keys AUDIO_CONFIGS) ->
        getFileExtensionOrThrow m
        = Throw (ErrorObj ("Formato no soportado: " ++ m))).
Proof.
  intros m. split.
  - apply extension_of_key.
  - intros H. unfold getFileExtensionOrThrow.
    destruct (isSupportedMimeType m) eqn:E; [| reflexivity].
    apply isSupportedMimeType_In in E. contradiction.
Qed.

Lemma X1_witness :
  (exists c, lookup "audio/mpeg" AUDIO_CONFIGS = Some c
             /\ getFileExtensionOrThrow "audio/mpeg" = Ok (extension c))
  /\ getFileExtensionOrThrow "audio/ogg"
     = Throw (ErrorObj "Formato no soportado: audio/ogg").
Proof.
  split.
  - apply (proj1 (X1_extension_of_a_key_or_throw "audio/mpeg")).
    simpl. auto 6.
  - apply (proj2 (X1_extension_of_a_key_or_throw "audio/ogg")).
    simpl. intros [H | [H | [H | [H | []]]]]; discriminate H.
Defined.

(** The four ways the search of [getMimeTypeFromExtension] can succeed, and
    the one way it fails. *)
Lemma getMimeTypeFromExtension_cases (ext : string) :
  (ext = "webm" /\ getMimeTypeFromExtension ext = Ok "audio/webm;codecs=opus")
  \/ (ext = "mp4" /\ getMimeTypeFromExtension ext = Ok "audio/mp4")
  \/ (ext = "mp3" /\ getMimeTypeFromExtension ext = Ok "audio/mpeg")
  \/ (ext <> "webm" /\ ext <> "mp4" /\ ext <> "mp3"
      /\ getMimeTypeFromExtension ext
         = Throw (ErrorObj ("Formato no soportado: " ++ ext))).
Proof.
  unfold getMimeTypeFromExtension.
  remember (fun key => match lookup key AUDIO_CONFIGS with
                       | Some c => String.eqb (extension c) ext
                       | None => false
                       end) as f eqn:Hf.
  assert (F1 : f "audio/webm;codecs=opus" = String.eqb "webm" ext)
    by (rewrite Hf; reflexivity).
  assert (F2 : f "audio/webm" = String.eqb "webm" ext) by (rewrite Hf; reflexivity).
  assert (F3 : f "audio/mp4" = String.eqb "mp4" ext) by (rewrite Hf; reflexivity).
  assert (F4 : f "audio/mpeg" = String.eqb "mp3" ext) by (rewrite Hf; reflexivity).
  clear Hf. cbn [keys map fst AUDIO_CONFIGS find]. rewrite F1, F2, F3, F4.
  destruct (String.eqb_spec "webm" ext) as [<- | N1]; [auto |].
  destruct (String.eqb_spec "mp4" ext) as [<- | N2]; [auto |].
  destruct (String.eqb_spec "mp3" ext) as [<- | N3]; [auto 6 |].
  right; right; right. repeat split; try congruence; reflexivity.
Qed.

(** X2. An extension that [getMimeTypeFromExtension] accepts leads to a key
    of the table whose extension it is: extension to MIME type to extension
    is the identity. It throws exactly on the extensions that
    [listSupportedFileExtensions] does not list. The other way round is not
    the identity: "audio/webm" has the extension "webm", which leads to
    "audio/webm;codecs=opus". *)
Theorem X2_extension_mime_round_trip :
  forall ext : string,
    (forall m, getMimeTypeFromExtension ext = Ok m ->
               In m (keys AUDIO_CONFIGS) /\ getFileExtensionOrThrow m = Ok ext)
    /\ (In ext listSupportedFileExtensions <->
        exists m, getMimeTypeFromExtension ext = Ok m)
    /\ (~ In ext listSupportedFileExtensions ->
        getMimeTypeFromExtension ext
        = Throw (ErrorObj ("Formato no soportado: " ++ ext)))
    /\ (getFileExtensionOrThrow "audio/webm" = Ok "webm"
        /\ getMimeTypeFromExtension "webm" = Ok "audio/webm;codecs=opus").
Proof.
  intros ext.
  assert (Hlist : In ext listSupportedFileExtensions <->
                  ext = "webm" \/ ext = "mp4" \/ ext = "mp3").
  { cbn. split.
    - intros [H | [H | [H | [H | []]]]]; subst; auto.
    - intros [-> | [-> | ->]]; auto 6. }
  destruct (getMimeTypeFromExtension_cases ext)
    as [[-> E] | [[-> E] | [[-> E] | (N1 & N2 & N3 & E)]]]; rewrite E.
  - split; [intros m Hm; inversion Hm; subst; split; [simpl; auto | reflexivity] |].
    split; [split; [eauto | intros _; apply Hlist; auto] |].
    split; [intros H; exfalso; apply H, Hlist; auto | split; reflexivity].
  - split; [intros m Hm; inversion Hm; subst; split; [simpl; auto | reflexivity] |].
    split; [split; [eauto | intros _; apply Hlist; auto] |].
    split; [intros H; exfalso; apply H, Hlist; auto | split; reflexivity].
  - split; [intros m Hm; inversion Hm; subst; split; [simpl; auto 6 | reflexivity] |].
    split; [split; [eauto | intros _; apply Hlist; auto] |].
    split; [intros H; exfalso; apply H, Hlist; auto | split; reflexivity].
  - split; [intros m Hm; discriminate Hm |].
    split; [split; [intros H; apply Hlist in H; intuition congruence
                   | intros [m Hm]; discriminate Hm] |].
    split; [reflexivity | split; reflexivity].
Qed.

Lemma X2_witness :
  (In "audio/mpeg" (keys AUDIO_CONFIGS) /\ getFileExtensionOrThrow "audio/mpeg" = Ok "mp3")
  /\ getMimeTypeFromExtension "wav" = Throw (ErrorObj "Formato no soportado: wav").
Proof.
  split.
  - apply (proj1 (X2_extension_mime_round_trip "mp3") "audio/mpeg"). reflexivity.
  - apply (proj1 (proj2 (proj2 (X2_extension_mime_round_trip "wav")))).
    cbn. intros [H | [H | [H | [H | []]]]]; discriminate H.
Defined.

(** ** File names *)

Lemma count_char_app (c : ascii) (s t : string) :
  count_char c (s ++ t) = count_char c s + count_char c t.
Proof.
  induction s as [| c' s IH]; cbn; [reflexivity |].
  rewrite IH. apply Nat.add_assoc.
Qed.

Lemma replace_colon_dot_clean (s : string) :
  count_char ":" (replace_colon_dot s) = 0
  /\ count_char "." (replace_colon_dot s) = 0
  /\ String.length (replace_colon_dot s) = String.length s.
Proof.
  induction s as [| c s (IH1 & IH2 & IH3)];
    cbn [replace_colon_dot count_char String.length]; [auto |].
  rewrite IH1, IH2, IH3.
  destruct (Ascii.eqb c ":") eqn:E1; cbn [orb].
  - repeat split; reflexivity.
  - destruct (Ascii.eqb c ".") eqn:E2; [repeat split; reflexivity |].
    rewrite (Ascii.eqb_sym ":"%char c), E1, (Ascii.eqb_sym "."%char c), E2. auto.
Qed.

Lemma length_app_string (s t : string) :
  String.length (s ++ t) = String.length s + String.length t.
Proof. induction s as [| c s IH]; cbn; [reflexivity | rewrite IH; reflexivity]. Qed.

(** X3. A file name that [generateFileName] returns is "recording-", the
    timestamp with every colon and dot replaced, a dot and the extension: it
    holds no colon and exactly one dot, the one before the extension,
    whatever the timestamp; and a name is returned exactly for the keys of
    the table. *)
Theorem X3_generated_name_has_one_dot :
  forall (iso m : string),
    (forall name,
        generateFileName iso m = Ok name ->
        In m (keys AUDIO_CONFIGS)
        /\ count_char ":" name = 0
        /\ count_char "." name = 1
        /\ exists ext, getFileExtensionOrThrow m = Ok ext
                       /\ String.length name
                          = 10 + String.length iso + 1 + String.length ext)
    /\ (In m (keys AUDIO_CONFIGS) -> exists name, generateFileName iso m = Ok name).
Proof.
  intros iso m.
  destruct (replace_colon_dot_clean iso) as (C1 & C2 & C3).
  split.
  - intros name. unfold generateFileName.
    destruct (getFileExtensionOrThrow m) as [ext | e] eqn:E; [| discriminate].
    intros H.
    assert (Hn : name = "recording-" ++ replace_colon_dot iso ++ "." ++ ext)
      by congruence.
    clear H. subst name.
    assert (Hin : In m (keys AUDIO_CONFIGS)).
    { destruct (isSupportedMimeType m) eqn:Es;
        [apply isSupportedMimeType_In; exact Es |].
      unfold getFileExtensionOrThrow in E. rewrite Es in E. discriminate E. }
    split; [exact Hin |].
    assert (Hext : count_char ":" ext = 0 /\ count_char "." ext = 0).
    { destruct (AudioConstFacts.key_cases Hin) as [-> | [-> | [-> | ->]]];
        cbn in E; inversion E; subst; split; reflexivity. }
    destruct Hext as [X1 X2].
    rewrite !count_char_app, C1, C2, X1, X2.
    split; [reflexivity |]. split; [reflexivity |].
    exists ext. split; [reflexivity |].
    rewrite !length_app_string, C3. cbn. lia.
  - intros Hin.
    destruct (extension_of_key Hin) as (c & _ & E).
    unfold generateFileName. rewrite E. eauto.
Qed.

Lemma X3_witness :
  count_char ":" "recording-2024-01-02T03-04-05-000Z.webm" = 0
  /\ count_char "." "recording-2024-01-02T03-04-05-000Z.webm" = 1.
Proof.
  destruct (proj1 (X3_generated_name_has_one_dot "2024-01-02T03:04:05.000Z" "audio/webm")
              "recording-2024-01-02T03-04-05-000Z.webm" eq_refl)
    as (_ & H1 & H2 & _).
  split; assumption.
Defined.

End AudioConstMore.

(* ================================================================== *)
(** * More on the recording controller *)
(* ================================================================== *)
Module RecorderMore.
Import Recorder.
Import Invariants.
Open Scope string_scope.
Open Scope nat_scope.

Ltac coh :=
  unfold coherent in *; cbn in *;
  intuition (try discriminate; try congruence; eauto).

Lemma coherent_started sup a g g' :
  attempt sup a g = Done g' -> coherent g'.
Proof.
  intros E. destruct (RecorderFacts.attempt_Done _ _ _ E) as (s & _ & _ & _ & _ & ->).
  coh.
Qed.

Lemma coherent_handleError e h : coherent (_handleError e h).
Proof. rewrite RecorderFacts.handleError_eq. coh. Qed.

Lemma coherent_reset h : coherent (reset h).
Proof. rewrite RecorderFacts.reset_eq. coh. Qed.

Lemma coherent_startRecording sup attempts h tr h' :
  startRecording sup attempts h = Some (tr, h') -> coherent h'.
Proof.
  rewrite RecorderFacts.startRecording_unfold.
  destruct (attempt sup (attempts 0) h) as [h1 | e0 h1] eqn:E0.
  { intros H; inversion H; subst. eapply coherent_started; eassumption. }
  destruct (attempt sup (attempts 1) h1) as [h2 | e1 h2] eqn:E1.
  { intros H; inversion H; subst. eapply coherent_started; eassumption. }
  destruct (attempt sup (attempts 2) h2) as [h3 | e2 h3] eqn:E2.
  { intros H; inversion H; subst. eapply coherent_started; eassumption. }
  intros H; inversion H; subst. apply coherent_handleError.
Qed.

Lemma step_keeps_coherent sup h ev :
  coherent h -> coherent (step sup h ev).
Proof.
  intros Inv.
  destruct ev as [attempts | | | | data | | | | | | ds]; unfold step.
  - (* startRecording *)
    destruct (startRecording sup attempts h) as [[tr h'] |] eqn:E; [| exact Inv].
    eapply coherent_startRecording; eassumption.
  - (* stopRecording *)
    destruct h as [[sts rt rb bu er] dv lbl [r|] s cs t m c f]; [| exact Inv].
    unfold stopRecording. cbn [mediaRecorderRef].
    destruct (is_inactive (rstate r)); [exact Inv |].
    destruct t; coh.
  - (* togglePauseResume *)
    destruct h as [[sts rt rb bu er] dv lbl [r|] s cs t m c f]; [| exact Inv].
    unfold togglePauseResume. cbn [mediaRecorderRef].
    destruct (is_inactive (rstate r)); [exact Inv |].
    destruct sts; try exact Inv; destruct t; coh.
  - (* releaseResources *)
    apply coherent_reset.
  - (* dataavailable *)
    unfold dispatch.
    destruct h as [[sts rt rb bu er] dv lbl [r|] s cs t m c f]; [| exact Inv].
    cbn [mediaRecorderRef].
    destruct (listeners r); [| exact Inv].
    unfold handleDataAvailable.
    destruct (0 <? size data) eqn:Hd; [| exact Inv].
    cbn [with_mediaRecorderRef mimeTypeRef_current mimeTypeRef chunksRef].
    rewrite RecorderFacts.size_rewrapped, Hd.
    assert (HF : Forall (fun c0 => nonEmpty c0 = true)
                   (cs ++ [newBlob [data] (match m with Some m0 => m0 | None => "null" end)])).
    { apply Forall_app. split; [apply Inv |].
      constructor; [| constructor].
      unfold nonEmpty. rewrite RecorderFacts.size_rewrapped. exact Hd. }
    coh.
  - (* stop *)
    unfold dispatch.
    destruct h as [[sts rt rb bu er] dv lbl [r|] s cs t m c f]; [| exact Inv].
    cbn [mediaRecorderRef rec_with_rstate listeners].
    destruct (listeners r) as [cl|] eqn:El.
    + unfold handleStop.
      destruct (negb (dataReceived cl)); [apply coherent_handleError |].
      cbn [chunksRef with_mediaRecorderRef].
      destruct (Nat.eqb (List.length cs) 0); [apply coherent_handleError |].
      match goal with |- context [if ?b then _ else _] => destruct b eqn:Hsz end;
        [apply coherent_handleError |].
      apply Nat.eqb_neq in Hsz.
      unfold mimeTypeRef_current in Hsz. cbn [mimeTypeRef with_mediaRecorderRef] in Hsz.
      assert (Hpos : 0 < size (newBlob cs (match m with Some m0 => m0 | None => "null" end)))
        by lia.
      clear Hsz. destruct t; coh.
    + coh.
  - (* pause *)
    unfold dispatch.
    destruct h as [[sts rt rb bu er] dv lbl [r|] s cs t m c f]; [| exact Inv].
    cbn [mediaRecorderRef].
    destruct (listeners r); [| exact Inv].
    destruct t; coh.
  - (* resume *)
    unfold dispatch.
    destruct h as [[sts rt rb bu er] dv lbl [r|] s cs t m c f]; [| exact Inv].
    cbn [mediaRecorderRef].
    destruct (listeners r); [| exact Inv].
    destruct t; coh.
  - (* error *)
    unfold dispatch.
    destruct h as [[sts rt rb bu er] dv lbl [r|] s cs t m c f]; [| exact Inv].
    cbn [mediaRecorderRef].
    destruct (listeners r); [| exact Inv].
    apply coherent_handleError.
  - (* tick *)
    destruct h as [[sts rt rb bu er] dv lbl r s cs [t|] m c f]; [| exact Inv].
    unfold tick. cbn [timerIntervalRef].
    assert (sts = recording).
    { unfold coherent in Inv; cbn in Inv. destruct Inv as (_ & I2 & _).
      apply I2. discriminate. }
    subst sts. coh.
  - (* devices *)
    destruct h. exact Inv.
Qed.

Lemma reachable_coherent sup h : reachable sup h -> coherent h.
Proof.
  induction 1 as [| h ev Hr IH].
  - coh.
  - apply step_keeps_coherent. exact IH.
Qed.

Lemma recorder_run_reachable sup evs : reachable sup (run sup initial evs).
Proof. apply RecorderFacts.recorder_reachable_run. constructor. Qed.

(** X4. The elapsed-time ticker is installed only while the status is
    [recording]: in every reachable state with another status, a firing of
    the interval changes nothing, so the recording time is frozen while
    paused and after a stop. *)
Theorem X4_ticker_runs_only_while_recording :
  forall sup h,
    reachable sup h ->
    (timerIntervalRef h <> None -> status (state h) = recording)
    /\ (status (state h) <> recording -> tick h = h).
Proof.
  intros sup h Hr.
  destruct (reachable_coherent Hr) as (_ & I2 & _).
  split; [exact I2 |].
  intros Hn. unfold tick.
  destruct (timerIntervalRef h) eqn:Et; [| reflexivity].
  exfalso. apply Hn, I2. discriminate.
Qed.

Lemma X4_witness :
  let h := run allSupported initial
             [CallStartRecording (fun _ => okAttempt); OnTick; OnTick;
              CallTogglePauseResume; OnPause] in
  recordingTime (state h) = 2 /\ tick h = h.
Proof.
  cbv zeta. split; [reflexivity |].
  refine (proj2 (@X4_ticker_runs_only_while_recording allSupported _ (recorder_run_reachable _ _)) _).
  discriminate.
Defined.

(** X5. Every chunk the controller keeps is non-empty, in every reachable
    state: an empty delivery is never stored. *)
Theorem X5_stored_chunks_are_non_empty :
  forall sup h,
    reachable sup h ->
    Forall (fun c => 0 < size c) (chunksRef h).
Proof.
  intros sup h Hr.
  destruct (reachable_coherent Hr) as (_ & _ & I3 & _).
  eapply Forall_impl; [| exact I3].
  intros c Hc. unfold nonEmpty in Hc. apply Nat.ltb_lt in Hc. exact Hc.
Qed.

Lemma X5_witness :
  Forall (fun c => 0 < size c)
    (chunksRef (run allSupported initial
                  [CallStartRecording (fun _ => okAttempt);
                   OnDataAvailable (chunk 0); OnDataAvailable (chunk 3);
                   OnDataAvailable (chunk 0)])).
Proof.
  apply (@X5_stored_chunks_are_non_empty allSupported). apply recorder_run_reachable.
Defined.



(** X7. In every reachable state with status [stopped] a recording blob of
    at least one byte is published, no error is recorded, the recorder the
    ref holds is inactive and the ticker is off. *)
Theorem X7_stopped_means_a_non_empty_blob :
  forall sup h,
    reachable sup h ->
    status (state h) = stopped ->
    (exists b, recordingBlob (state h) = Some b /\ 0 < size b)
    /\ error (state h) = None
    /\ (exists r, mediaRecorderRef h = Some r /\ rstate r = rs_inactive)
    /\ timerIntervalRef h = None.
Proof.
  intros sup h Hr Hs.
  destruct (reachable_coherent Hr) as (_ & I2 & _ & _ & _ & I6).
  destruct (I6 Hs) as (He & Hb & Hrec).
  split.
  { destruct (recordingBlob (state h)) as [b|]; [eauto | contradiction]. }
  split; [exact He |].
  split.
  { destruct (mediaRecorderRef h) as [r|]; [eauto | contradiction]. }
  destruct (timerIntervalRef h) eqn:Et; [| reflexivity].
  assert (H : status (state h) = recording) by (apply I2; discriminate).
  congruence.
Qed.

Lemma X7_witness :
  let h := run allSupported initial
             [CallStartRecording (fun _ => okAttempt);
              OnDataAvailable (chunk 4); CallStopRecording; OnStop;
              OnDataAvailable (chunk 2); CallTogglePauseResume] in
  (exists b, recordingBlob (state h) = Some b /\ 0 < size b)
  /\ error (state h) = None
  /\ (exists r, mediaRecorderRef h = Some r /\ rstate r = rs_inactive)
  /\ timerIntervalRef h = None.
Proof.
  cbv zeta.
  apply (@X7_stopped_means_a_non_empty_blob allSupported);
    [apply recorder_run_reachable | reflexivity].
Defined.

(** X8. In every reachable state in which an error is recorded the status
    is [idle] and no recorder is held: an error is never shown beside a
    session that goes on. *)
Theorem X8_an_error_means_idle :
  forall sup h,
    reachable sup h ->
    error (state h) <> None ->
    status (state h) = idle /\ mediaRecorderRef h = None.
Proof.
  intros sup h Hr He.
  destruct (reachable_coherent Hr) as (I1 & _ & _ & I4 & _).
  split; [exact (I4 He) | apply I1; exact (I4 He)].
Qed.

Lemma X8_witness :
  let h := run noneSupported initial [CallStartRecording (fun _ => okAttempt); OnPause] in
  status (state h) = idle /\ mediaRecorderRef h = None.
Proof.
  cbv zeta.
  apply (@X8_an_error_means_idle noneSupported); [apply recorder_run_reachable | discriminate].
Defined.

(** X9. However the hook was left, a call of [startRecording] ends in one of
    two ways. Either a fresh session records: no chunk, no blob, time 0, no
    error, an active recorder with its listeners attached and the ticker on.
    Or the hook is fully reset and idle, an error recorded. The device list
    is kept, and the device label is set either way. *)
Theorem X9_startRecording_starts_afresh_or_resets :
  forall sup attempts h,
    exists tr h',
      startRecording sup attempts h = Some (tr, h')
      /\ devices h' = devices h
      /\ currentDeviceLabel h' = Some (deviceLabel (devices h))
      /\ chunksRef h' = []
      /\ recordingTime (state h') = 0
      /\ recordingBlob (state h') = None
      /\ ((status (state h') = recording /\ error (state h') = None
           /\ timerIntervalRef h' <> None
           /\ exists r, mediaRecorderRef h' = Some r
                        /\ rstate r = rs_recording
                        /\ listeners r = Some {| dataReceived := false |})
          \/ (status (state h') = idle /\ error (state h') <> None
              /\ timerIntervalRef h' = None
              /\ mediaRecorderRef h' = None /\ mediaStreamRef h' = None)).
Proof.
  intros sup attempts h.
  assert (Hlabel : forall a g e g', attempt sup a g = Raised e g' ->
            devices g' = devices g
            /\ currentDeviceLabel g' = Some (deviceLabel (devices g))).
  { intros a g e g'. unfold attempt.
    rewrite RecorderFacts.attempt_prefix, RecorderFacts.reset_eq.
    destruct (gum a) as [e0 | s]; cbn.
    - intros H; inversion H; subst; cbn; auto.
    - destruct (active s); cbn.
      + destruct (sup (AudioConst.getBestSupportedMimeType sup)); cbn.
        * destruct (startThrows a); cbn; intros H; inversion H; subst; cbn; auto.
        * intros H; inversion H; subst; cbn; auto.
      + intros H; inversion H; subst; cbn; auto. }
  assert (Hdone : forall a g g', attempt sup a g = Done g' ->
            devices g' = devices g
            /\ currentDeviceLabel g' = Some (deviceLabel (devices g))
            /\ chunksRef g' = []
            /\ recordingTime (state g') = 0
            /\ recordingBlob (state g') = None
            /\ (status (state g') = recording /\ error (state g') = None
                /\ timerIntervalRef g' <> None
                /\ exists r, mediaRecorderRef g' = Some r
                             /\ rstate r = rs_recording
                             /\ listeners r = Some {| dataReceived := false |})).
  { intros a g g' E.
    destruct (RecorderFacts.attempt_Done _ _ _ E) as (s & _ & _ & _ & _ & ->).
    cbn. repeat split; try reflexivity; try discriminate.
    eexists. repeat split; reflexivity. }
  rewrite RecorderFacts.startRecording_unfold.
  destruct (attempt sup (attempts 0) h) as [h1 | e0 h1] eqn:E0.
  { destruct (Hdone _ _ _ E0) as (D1 & D2 & D3 & D4 & D5 & D6).
    do 2 eexists. split; [reflexivity |]. auto 10. }
  destruct (Hlabel _ _ _ _ E0) as [L1 L1'].
  destruct (attempt sup (attempts 1) h1) as [h2 | e1 h2] eqn:E1.
  { destruct (Hdone _ _ _ E1) as (D1 & D2 & D3 & D4 & D5 & D6).
    do 2 eexists. split; [reflexivity |].
    rewrite D1, D2, L1. auto 10. }
  destruct (Hlabel _ _ _ _ E1) as [L2 L2'].
  destruct (attempt sup (attempts 2) h2) as [h3 | e2 h3] eqn:E2.
  { destruct (Hdone _ _ _ E2) as (D1 & D2 & D3 & D4 & D5 & D6).
    do 2 eexists. split; [reflexivity |].
    rewrite D1, D2, L2, L1. auto 10. }
  destruct (Hlabel _ _ _ _ E2) as [L3 L3'].
  do 2 eexists. split; [reflexivity |].
  rewrite RecorderFacts.handleError_eq. cbn.
  rewrite L3, L3', L2, L1.
  repeat split; try reflexivity.
  right. repeat split; try reflexivity. discriminate.
Qed.

(** X10. After [releaseResources] nothing but a new [startRecording] brings
    the hook back to life: a late event of the released recorder, a tick of
    the cleared interval, a stop or pause request or a second release all
    leave the hook exactly as the release left it. *)
Theorem X10_late_events_after_release_are_ignored :
  forall sup h ev,
    match ev with
    | CallStartRecording _ | OnDevices _ => false
    | _ => true
    end = true ->
    step sup (releaseResources h) ev = releaseResources h.
Proof.
  intros sup h ev Hev. unfold releaseResources.
  rewrite RecorderFacts.reset_eq.
  destruct ev; try discriminate Hev; try reflexivity.
Qed.

Lemma X10_witness :
  let h := run allSupported initial
             [CallStartRecording (fun _ => okAttempt); OnDataAvailable (chunk 7)] in
  step allSupported (releaseResources h) OnStop = releaseResources h
  /\ step allSupported (releaseResources h) (OnDataAvailable (chunk 9))
     = releaseResources h.
Proof.
  cbv zeta. split;
    apply (@X10_late_events_after_release_are_ignored allSupported); reflexivity.
Defined.

(** X11. The recorder's [pause] event publishes what has been recorded so
    far without ending the session: the status becomes [paused], the ticker
    stops, the published blob is the concatenation of the non-empty chunks
    delivered up to then (an empty blob if there were none), and the chunks
    are kept for the rest of the session. *)
Theorem X11_pause_publishes_the_chunks_so_far :
  forall sup attempts h0 tr h1 evs,
    startRecording sup attempts h0 = Some (tr, h1) ->
    status (state h1) = recording ->
    forallb in_session evs = true ->
    let h := run sup h1 evs in
    let h' := step sup h OnPause in
    status (state h') = paused
    /\ timerIntervalRef h' = None
    /\ chunksRef h' = chunksRef h
    /\ mediaRecorderRef h' = mediaRecorderRef h
    /\ exists b,
        recordingBlob (state h') = Some b
        /\ bytes b = List.concat (map bytes (filter nonEmpty (delivered evs)))
        /\ type b = AudioConst.getBestSupportedMimeType sup.
Proof.
  intros sup attempts h0 tr h1 evs Hs Hrec Hall h h'.
  assert (P : in_progress (AudioConst.getBestSupportedMimeType sup) (delivered evs) h).
  { subst h. change (delivered evs) with ([] ++ delivered evs)%list.
    apply RecorderFacts.in_progress_run.
    - eapply RecorderFacts.started_in_progress; eassumption.
    - eapply RecorderFacts.forallb_weaken; [| exact Hall].
      intros ev E. rewrite E. reflexivity. }
  subst h'. destruct P as (Hm & Hc & r & Hr & Hl).
  destruct h as [[sts rt rb bu er] dv lbl rr s cs t mm c f]; cbn in Hm, Hc, Hr.
  subst rr mm cs.
  cbn [step dispatch mediaRecorderRef]. rewrite Hl.
  unfold handlePause.
  destruct t; cbn;
    (split; [reflexivity |]; split; [reflexivity |]; split; [reflexivity |];
     split; [reflexivity |]; eexists; split; [reflexivity |];
     split; [apply RecorderFacts.bytes_rewrapped | reflexivity]).
Qed.

Lemma X11_witness :
  let h := run allSupported
             (run allSupported initial [CallStartRecording (fun _ => okAttempt)])
             [OnDataAvailable (chunk 2); OnDataAvailable (chunk 0);
              OnDataAvailable (chunk 3); CallTogglePauseResume] in
  let h' := step allSupported h OnPause in
  status (state h') = paused
  /\ timerIntervalRef h' = None
  /\ chunksRef h' = chunksRef h
  /\ mediaRecorderRef h' = mediaRecorderRef h
  /\ exists b,
      recordingBlob (state h') = Some b
      /\ bytes b = List.concat (map bytes [chunk 2; chunk 3])
      /\ type b = "audio/webm;codecs=opus".
Proof.
  refine (@X11_pause_publishes_the_chunks_so_far
            allSupported (fun _ => okAttempt) initial [Acquire] _
            [OnDataAvailable (chunk 2); OnDataAvailable (chunk 0);
             OnDataAvailable (chunk 3); CallTogglePauseResume] _ _ _);
    reflexivity.
Defined.



Lemma startRecording_time_zero sup attempts h tr h' :
  startRecording sup attempts h = Some (tr, h') ->
  recordingTime (state h') = 0 /\ chunksRef h' = []
  /\ recordingBlob (state h') = None.
Proof.
  intros E. pose proof (coherent_startRecording _ _ _ E) as C.
  rewrite RecorderFacts.startRecording_unfold in E.
  assert (Hdone : forall a g g', attempt sup a g = Done g' ->
            recordingTime (state g') = 0 /\ chunksRef g' = []
            /\ recordingBlob (state g') = None).
  { intros a g g' Ea.
    destruct (RecorderFacts.attempt_Done _ _ _ Ea) as (s & _ & _ & _ & _ & ->).
    cbn. auto. }
  destruct (attempt sup (attempts 0) h) as [h1 | e0 h1] eqn:E0.
  { inversion E; subst. eapply Hdone; eassumption. }
  destruct (attempt sup (attempts 1) h1) as [h2 | e1 h2] eqn:E1.
  { inversion E; subst. eapply Hdone; eassumption. }
  destruct (attempt sup (attempts 2) h2) as [h3 | e2 h3] eqn:E2.
  { inversion E; subst. eapply Hdone; eassumption. }
  inversion E; subst. rewrite RecorderFacts.handleError_eq. cbn. auto.
Qed.

(** X13. One step does one of three things to the recording time: it leaves
    it as it is; or, for a tick of the running interval only, it adds one;
    or it sets it to 0, and then the chunks and the blob are cleared with
    it. The time never goes down without everything being cleared. *)
Theorem X13_recording_time_moves_by_ticks_or_is_cleared :
  forall sup h ev,
    let h' := step sup h ev in
    recordingTime (state h') = recordingTime (state h)
    \/ (ev = OnTick /\ timerIntervalRef h <> None
        /\ recordingTime (state h') = S (recordingTime (state h)))
    \/ (recordingTime (state h') = 0 /\ chunksRef h' = []
        /\ recordingBlob (state h') = None).
Proof.
  intros sup h ev h'. subst h'.
  assert (Herr : forall e g,
            recordingTime (state (_handleError e g)) = 0
            /\ chunksRef (_handleError e g) = []
            /\ recordingBlob (state (_handleError e g)) = None).
  { intros e g. rewrite RecorderFacts.handleError_eq. cbn. auto. }
  destruct ev as [attempts | | | | data | | | | | | ds]; unfold step.
  - destruct (startRecording sup attempts h) as [[tr g] |] eqn:E; [| auto].
    right; right. eapply startRecording_time_zero; eassumption.
  - left. unfold stopRecording.
    destruct (mediaRecorderRef h) as [r|]; [| reflexivity].
    destruct (is_inactive (rstate r)); [reflexivity |].
    unfold _clearTimer. destruct (timerIntervalRef h); reflexivity.
  - left. unfold togglePauseResume.
    destruct (mediaRecorderRef h) as [r|]; [| reflexivity].
    destruct (is_inactive (rstate r)); [reflexivity |].
    destruct (status (state h)); try reflexivity;
      unfold _startTimer, _clearTimer; cbn;
      destruct (timerIntervalRef h); reflexivity.
  - right; right. unfold releaseResources. rewrite RecorderFacts.reset_eq. cbn. auto.
  - left. unfold dispatch.
    destruct (mediaRecorderRef h) as [r|]; [| reflexivity].
    destruct (listeners r); [| reflexivity].
    unfold handleDataAvailable.
    destruct (0 <? size data); [| reflexivity].
    destruct (0 <? size _); reflexivity.
  - unfold dispatch.
    destruct (mediaRecorderRef h) as [r|]; [| auto].
    cbn [rec_with_rstate listeners].
    destruct (listeners r) as [cl|]; [| auto].
    unfold handleStop.
    destruct (negb (dataReceived cl)); [right; right; apply Herr |].
    destruct (Nat.eqb _ 0); [right; right; apply Herr |].
    destruct (Nat.eqb _ 0); [right; right; apply Herr |].
    left. unfold _clearTimer. cbn.
    destruct (timerIntervalRef h); reflexivity.
  - left. unfold dispatch.
    destruct (mediaRecorderRef h) as [r|]; [| reflexivity].
    destruct (listeners r); [| reflexivity].
    unfold handlePause, _clearTimer.
    destruct (timerIntervalRef h); reflexivity.
  - left. unfold dispatch.
    destruct (mediaRecorderRef h) as [r|]; [| reflexivity].
    destruct (listeners r); [| reflexivity].
    unfold handleResume, _startTimer, _clearTimer.
    destruct (timerIntervalRef h); reflexivity.
  - unfold dispatch.
    destruct (mediaRecorderRef h) as [r|]; [| auto].
    destruct (listeners r); [| auto].
    right; right. apply Herr.
  - unfold tick. destruct (timerIntervalRef h) eqn:Et; [| auto].
    right; left. split; [reflexivity |]. split; [discriminate |].
    cbn. apply Nat.add_1_r.
  - left. reflexivity.
Qed.

End RecorderMore.

(* ================================================================== *)
(** * More on the playback engine *)
(* ================================================================== *)
Module PlayerMore.
Import Player.
Import Invariants.
Open Scope string_scope.
Open Scope Q_scope.

Lemma source_stopTimeUpdates p : source (stopTimeUpdates p) = source p.
Proof. unfold stopTimeUpdates. destruct (timeUpdateId p); reflexivity. Qed.

Lemma notifications_stopTimeUpdates p :
  notifications (stopTimeUpdates p) = notifications p.
Proof. unfold stopTimeUpdates. destruct (timeUpdateId p); reflexivity. Qed.

Ltac eng_simpl :=
  repeat (cbn;
          rewrite ?PlayerFacts.state_transition, ?PlayerFacts.context_transition,
            ?PlayerFacts.buffer_transition, ?PlayerFacts.source_transition,
            ?PlayerFacts.state_stopTimeUpdates, ?PlayerFacts.context_stopTimeUpdates,
            ?PlayerFacts.buffer_stopTimeUpdates).

(** Closes a goal [sound _] once the operation is unfolded, from the two
    halves of the invariant before the step when they are in the context. *)
Ltac sound_use I H :=
  let Hb := fresh "Hb" in let c' := fresh "c'" in
  let Ec := fresh "Ec" in let Hle := fresh "Hle" in
  destruct (I H) as (Hb & c' & Ec & Hle); clear I;
  first [discriminate Ec | inversion Ec; subst c'; clear Ec | idtac].

Ltac sound_playing :=
  split;
  [ try discriminate; try assumption; try tauto
  | first [ eexists; split;
            [reflexivity | cbn in *; first [lra | apply Qle_refl | assumption]]
          | eauto ] ].

Ltac sound_fin :=
  unfold sound; eng_simpl;
  try match goal with
      | I : true = true -> _ |- _ => sound_use I (@eq_refl bool true)
      end;
  (split;
   [ let Hp := fresh "Hp" in
     intros Hp;
     first [ discriminate Hp
           | try match goal with
                 | I : _ = true -> _ |- _ => sound_use I Hp
                 end;
             sound_playing ]
   | cbn in *; first [lra | apply Qle_refl | assumption | apply Q.le_max_l] ]).

Lemma sound_catch e q : sound (loadAudio_catch e q).
Proof.
  destruct (PlayerFacts.loadAudio_catch_facts e q) as (_ & _ & _ & Hp & Ho & _).
  unfold sound. rewrite Hp, Ho. split; [discriminate | apply Qle_refl].
Qed.

Lemma step_keeps_sound p ev : sound p -> sound (step p ev).
Proof.
  intros Inv.
  destruct p as [[i ip ir ct off dur st er] ctx src buf subs ls ss tu n nf sp].
  unfold sound in Inv; cbn in Inv. destruct Inv as [I1 I2].
  destruct ev as [l | o | | time | o | | | cb | cb | | | | dt]; cbn [step].
  - (* loadAudio *)
    unfold loadAudio. cbn [context].
    destruct ctx as [c|].
    + destruct (suspendRejects l); [apply sound_catch |].
      destruct (fetched l); try apply sound_catch. sound_fin.
    + destruct (fetched l); try apply sound_catch. sound_fin.
  - (* play *)
    unfold play, handleError, setupSource. cbn [context buffer state isPlaying].
    destruct ctx as [c|]; [| sound_fin].
    destruct buf as [b|]; [| sound_fin].
    destruct ip; [sound_fin |].
    destruct (resumeRejects o); [sound_fin |].
    cbn. destruct tu; destruct (startThrows o); sound_fin.
  - (* pause *)
    unfold pause, pause_begin, pause_finish. cbn [context state isPlaying].
    destruct ctx as [c|]; [| sound_fin].
    destruct ip; destruct tu; sound_fin.
  - (* seek *)
    unfold seek, startPlayback, setupSource. cbn [buffer state isPlaying source].
    destruct buf as [b|]; [| sound_fin].
    destruct ip.
    + destruct (I1 eq_refl) as (_ & c' & Ec & Hle). subst ctx. clear I1.
      destruct src; sound_fin.
    + destruct src; sound_fin.
  - (* toggle *)
    unfold toggle. cbn [state isPlaying].
    destruct ip; cbn [fst].
    + unfold pause, pause_begin, pause_finish. cbn [context state isPlaying].
      destruct (I1 eq_refl) as (Hb & c' & Ec & Hle). subst ctx. clear I1.
      destruct tu; sound_fin.
    + unfold play, handleError, setupSource. cbn [context buffer state isPlaying].
      destruct ctx as [c|]; [| sound_fin].
      destruct buf as [b|]; [| sound_fin].
      destruct (resumeRejects o); [sound_fin |].
      cbn. destruct tu; destruct (startThrows o); sound_fin.
  - (* dispose *)
    rewrite PlayerFacts.dispose_eq. sound_fin.
  - (* getSnapshot *)
    unfold getSnapshot. cbn [snd]. destruct (negb _); sound_fin.
  - unfold subscribe. destruct (existsb _ _); sound_fin.
  - sound_fin.
  - (* ended *)
    unfold onended. cbn [buffer].
    destruct buf as [b|]; [| sound_fin].
    destruct (negb _); [sound_fin |].
    destruct tu; sound_fin.
  - (* frame *)
    unfold updateTime, updateCurrentTime. cbn [timeUpdateId state isPlaying context].
    destruct tu; [| sound_fin].
    destruct ip; [| sound_fin].
    destruct (I1 eq_refl) as (Hb & c' & Ec & Hle). subst ctx. clear I1.
    sound_fin.
  - (* the suspended pause goes on *)
    unfold pause_settles. cbn [suspendedPauses].
    destruct sp; [sound_fin |].
    unfold pause_finish.
    destruct ip.
    + destruct (I1 eq_refl) as (Hb & c' & Ec & Hle). subst ctx. clear I1.
      destruct tu; sound_fin.
    + destruct tu; sound_fin.
  - (* clock *)
    unfold advance. cbn [context].
    destruct ctx as [c|]; [| sound_fin].
    destruct (ctx_state c); try sound_fin.
    destruct (Qle_bool 0 dt) eqn:Ed; [| sound_fin].
    apply Qle_bool_iff in Ed. sound_fin.
Qed.

Lemma reachable_sound p : reachable p -> sound p.
Proof.
  induction 1 as [| p ev Hr IH].
  - unfold sound. cbn. split; [discriminate | apply Qle_refl].
  - apply step_keeps_sound. exact IH.
Qed.

Lemma player_run_reachable evs : reachable (run initial evs).
Proof. apply PlayerFacts.player_reachable_run. constructor. Qed.

(** X14. In every reachable state the derived current time is not
    negative, and so is the [currentTime] of the snapshot. *)
Theorem X14_current_time_is_never_negative :
  forall p,
    reachable p ->
    0 <= getCurrentTime p /\ 0 <= s_currentTime (fst (getSnapshot p)).
Proof.
  intros p Hr.
  assert (H : 0 <= getCurrentTime p).
  { destruct (reachable_sound Hr) as [I1 I2]. unfold getCurrentTime.
    destruct (isPlaying (state p)); cbn [negb]; [| exact I2].
    destruct (I1 eq_refl) as (_ & c & Ec & Hle). rewrite Ec. lra. }
  split; [exact H |].
  destruct (PlayerFacts.getSnapshot_reads p) as (_ & _ & S3 & _).
  rewrite S3. exact H.
Qed.

Lemma X14_witness :
  let p := run initial [CallLoadAudio tenSeconds; CallPlay smoothly; OnClock 4;
                        CallSeek (-3); OnClock 2] in
  0 <= getCurrentTime p /\ 0 <= s_currentTime (fst (getSnapshot p)).
Proof. cbv zeta. apply X14_current_time_is_never_negative. apply player_run_reachable. Defined.

(** X15. In every reachable state in which the engine is marked playing it
    holds a context and a buffer, and the snapshot carries the duration of
    that buffer. *)
Theorem X15_playing_means_loaded :
  forall p,
    reachable p ->
    isPlaying (state p) = true ->
    exists c b,
      context p = Some c /\ buffer p = Some b
      /\ s_isPlaying (fst (getSnapshot p)) = true
      /\ s_duration (fst (getSnapshot p)) == buf_duration b.
Proof.
  intros p Hr Hp.
  destruct (reachable_sound Hr) as [I1 _].
  destruct (I1 Hp) as (Hb & c & Ec & _).
  destruct (buffer p) as [b|] eqn:Eb; [| contradiction].
  destruct (PlayerFacts.getSnapshot_reads p) as (S1 & _ & _ & S4).
  exists c, b. rewrite S1, S4, Eb.
  repeat split; try reflexivity; assumption.
Qed.

Lemma X15_witness :
  let p := run initial [CallLoadAudio tenSeconds; CallPlay smoothly; OnClock 1] in
  exists c b,
    context p = Some c /\ buffer p = Some b
    /\ s_isPlaying (fst (getSnapshot p)) = true
    /\ s_duration (fst (getSnapshot p)) == buf_duration b.
Proof.
  cbv zeta. apply X15_playing_means_loaded; [apply player_run_reachable | reflexivity].
Defined.


(** [play()] on a loaded engine that is not playing, when the platform
    rejects nothing. *)
Lemma play_starts o q c b :
  context q = Some c -> buffer q = Some b -> isPlaying (state q) = false ->
  resumeRejects o = None -> startThrows o = None ->
  snd (play o q) = None
  /\ isPlaying (state (fst (play o q))) = true
  /\ isReady (state (fst (play o q))) = isReady (state q)
  /\ offset (state (fst (play o q))) = offset (state q)
  /\ startTime (state (fst (play o q))) = ctx_currentTime c
  /\ context (fst (play o q))
     = Some {| ctx_currentTime := ctx_currentTime c; ctx_state := running |}
  /\ buffer (fst (play o q)) = Some b
  /\ source (fst (play o q)) = Some {| started := Some (offset (state q)) |}
  /\ timeUpdateId (fst (play o q)) <> None.
Proof.
  intros Ec Eb Ep Hr Hs.
  destruct q as [[i ip ir ct off dur st er] ctx src buf subs ls ss tu n nf sp].
  cbn in Ec, Eb, Ep. subst ctx buf ip.
  unfold play, setupSource. cbn. rewrite Hr. cbn. rewrite Hs. cbn.
  rewrite PlayerFacts.state_transition, PlayerFacts.context_transition,
    PlayerFacts.buffer_transition, PlayerFacts.source_transition,
    PlayerFacts.timeUpdateId_transition.
  destruct tu; cbn; repeat split; try reflexivity; discriminate.
Qed.



(** X17. The derived time follows the audio clock: while the engine is
    playing on a running context, the clock moving on by [dt] moves the
    derived time on by [dt]; while it is not playing the derived time stands
    still whatever the clock does; and on a suspended context the clock does
    not move at all. *)
Theorem X17_derived_time_follows_the_clock :
  forall p c dt,
    context p = Some c -> 0 <= dt ->
    (ctx_state c = running -> isPlaying (state p) = true ->
     getCurrentTime (advance dt p) == getCurrentTime p + dt)
    /\ (isPlaying (state p) = false ->
        getCurrentTime (advance dt p) = getCurrentTime p)
    /\ (ctx_state c = suspended -> advance dt p = p).
Proof.
  intros p c dt Ec Hdt. apply Qle_bool_iff in Hdt.
  split; [| split].
  - intros Hrun Hp. unfold advance, getCurrentTime. rewrite Ec, Hrun, Hdt. cbn.
    rewrite Hp. cbn. ring.
  - intros Hp. unfold advance, getCurrentTime. rewrite Ec.
    destruct (ctx_state c); try (rewrite Hp; reflexivity).
    rewrite Hdt. cbn. rewrite Hp. reflexivity.
  - intros Hs. unfold advance. rewrite Ec, Hs. reflexivity.
Qed.

Lemma X17_witness :
  let p := run initial [CallLoadAudio tenSeconds; CallPlay smoothly; OnClock 2] in
  getCurrentTime (advance (3 # 2) p) == getCurrentTime p + (3 # 2).
Proof.
  cbv zeta.
  refine (proj1 (@X17_derived_time_follows_the_clock
                   (run initial [CallLoadAudio tenSeconds; CallPlay smoothly; OnClock 2])
                   _ (3 # 2) eq_refl _) eq_refl eq_refl).
  vm_compute. discriminate.
Defined.

Lemma snapshot_json_eqb_refl a : snapshot_json_eqb a a = true.
Proof.
  unfold snapshot_json_eqb.
  rewrite !Bool.eqb_reflx. cbn.
  rewrite (proj2 (Qeq_bool_iff _ _) (Qeq_refl (s_currentTime a))).
  rewrite (proj2 (Qeq_bool_iff _ _) (Qeq_refl (s_duration a))).
  reflexivity.
Qed.

(** X18. [getSnapshot()] is stable: a second call, with nothing done in
    between, returns the very snapshot the first returned and leaves the
    engine as the first left it, from any state. *)
Theorem X18_getSnapshot_is_stable :
  forall p,
    getSnapshot (snd (getSnapshot p)) = (fst (getSnapshot p), snd (getSnapshot p)).
Proof.
  intros p.
  destruct p as [stt ctx src buf subs ls ss tu n nf sp].
  unfold getSnapshot, getCurrentTime.
  cbn [state context buffer stableSnapshot].
  match goal with
  | |- context [snapshot_json_eqb ss ?x] => set (new := x)
  end.
  destruct (snapshot_json_eqb ss new) eqn:E;
    cbn [negb fst snd with_stableSnapshot state context buffer stableSnapshot];
    fold new.
  - rewrite E. reflexivity.
  - rewrite snapshot_json_eqb_refl. reflexivity.
Qed.

(** X19. On a loaded engine in a reachable state, [toggle()] flips
    [isPlaying] when the platform rejects nothing: it starts playback when
    the engine is not playing and pauses it when it is. *)
Theorem X19_toggle_flips_isPlaying :
  forall p b o,
    reachable p -> buffer p = Some b ->
    resumeRejects o = None -> startThrows o = None ->
    isPlaying (state (fst (toggle o p))) = negb (isPlaying (state p))
    /\ snd (toggle o p) = None.
Proof.
  intros p b o Hr Eb Hres Hst.
  destruct (context p) as [c|] eqn:Ec;
    [| rewrite (PlayerFacts.reachable_context Hr Ec) in Eb; discriminate].
  unfold toggle. destruct (isPlaying (state p)) eqn:Ep; cbn [fst snd negb].
  - destruct (PlayerFacts.pause_playing p Ec Ep) as (_ & H & _). auto.
  - destruct (play_starts o p Ec Eb Ep Hres Hst) as (P1 & P2 & _). auto.
Qed.

Lemma X19_witness :
  let p := run initial [CallLoadAudio tenSeconds; CallPlay smoothly; OnClock 2] in
  isPlaying (state (fst (toggle smoothly p))) = negb (isPlaying (state p))
  /\ snd (toggle smoothly p) = None.
Proof.
  cbv zeta.
  refine (@X19_toggle_flips_isPlaying
            (run initial [CallLoadAudio tenSeconds; CallPlay smoothly; OnClock 2])
            tenSecondClip smoothly (player_run_reachable _) _ _ _);
    vm_compute; reflexivity.
Defined.

(** X20. When the context refuses to resume, [play()] rejects with an
    [AudioPlayerError] of code [PLAYBACK_ERROR] carrying the message of what
    was thrown, marks the engine not ready and leaves it not playing, its
    buffer in place. The guard of [play()] does not look at [isReady]: a
    later [play()] that the platform accepts starts playback while the
    engine is still marked not ready. *)
Theorem X20_refused_play_marks_not_ready :
  forall p c b o e o',
    context p = Some c -> buffer p = Some b ->
    isPlaying (state p) = false ->
    resumeRejects o = Some e ->
    resumeRejects o' = None -> startThrows o' = None ->
    let q := fst (play o p) in
    snd (play o p) = Some {| message := thrownMessage e; code := PLAYBACK_ERROR |}
    /\ isReady (state q) = false
    /\ isPlaying (state q) = false
    /\ buffer q = Some b /\ context q = Some c
    /\ isPlaying (state (fst (play o' q))) = true
    /\ isReady (state (fst (play o' q))) = false.
Proof.
  intros p c b o e o' Ec Eb Ep Hr Hr' Hs' q.
  assert (Hq : play o p
               = (transition [SetIsReady false] p,
                  Some {| message := thrownMessage e; code := PLAYBACK_ERROR |})).
  { unfold play, handleError. rewrite Ec, Eb, Ep, Hr. reflexivity. }
  subst q. rewrite Hq. cbn [fst snd].
  assert (S1 : isReady (state (transition [SetIsReady false] p)) = false)
    by (rewrite PlayerFacts.state_transition; reflexivity).
  assert (S2 : isPlaying (state (transition [SetIsReady false] p)) = false)
    by (rewrite PlayerFacts.state_transition; cbn; exact Ep).
  assert (S3 : buffer (transition [SetIsReady false] p) = Some b)
    by (rewrite PlayerFacts.buffer_transition; exact Eb).
  assert (S4 : context (transition [SetIsReady false] p) = Some c)
    by (rewrite PlayerFacts.context_transition; exact Ec).
  destruct (play_starts o' _ S4 S3 S2 Hr' Hs') as (_ & P2 & P3 & _).
  rewrite P3, S1. auto 10.
Qed.

Lemma X20_witness :
  let p := run initial [CallLoadAudio tenSeconds] in
  let o := {| resumeRejects := Some (ErrorObj "NotAllowedError"); startThrows := None |} in
  snd (play o p) = Some {| message := "NotAllowedError"; code := PLAYBACK_ERROR |}
  /\ isReady (state (fst (play o p))) = false
  /\ isPlaying (state (fst (play smoothly (fst (play o p))))) = true
  /\ isReady (state (fst (play smoothly (fst (play o p))))) = false.
Proof.
  cbv zeta.
  destruct (@X20_refused_play_marks_not_ready
              (run initial [CallLoadAudio tenSeconds]) _ _
              {| resumeRejects := Some (ErrorObj "NotAllowedError"); startThrows := None |}
              (ErrorObj "NotAllowedError") smoothly
              eq_refl eq_refl eq_refl eq_refl eq_refl eq_refl)
    as (H1 & H2 & _ & _ & _ & H6 & H7).
  auto.
Defined.

(** X21. A [loadAudio] whose fetch and decode succeed rejects with nothing
    and leaves the decoded buffer in place, the engine ready, the offset at
    0 and a context held; the snapshot is ready with the duration of the new
    buffer. [isPlaying] is left as it was. *)
Theorem X21_successful_load_makes_ready :
  forall l p b,
    load_error l p = None -> fetched l = Decoded b ->
    let q := fst (loadAudio l p) in
    snd (loadAudio l p) = None
    /\ buffer q = Some b
    /\ context q <> None
    /\ isReady (state q) = true
    /\ offset (state q) = 0
    /\ isPlaying (state q) = isPlaying (state p)
    /\ s_isReady (fst (getSnapshot q)) = true
    /\ s_duration (fst (getSnapshot q)) == buf_duration b.
Proof.
  intros l p b He Hf q.
  assert (Hq : exists p0,
             loadAudio l p
             = (transition [SetOffset 0; SetIsReady true] (with_buffer (Some b) p0), None)
             /\ context p0 <> None /\ state p0 = state p).
  { unfold load_error in He. unfold loadAudio.
    destruct (context p) as [c|] eqn:Ec.
    - destruct (suspendRejects l); [discriminate He |].
      rewrite Hf. eexists. split; [reflexivity |]. split; [discriminate | reflexivity].
    - rewrite Hf. eexists. split; [reflexivity |]. split; [discriminate | reflexivity]. }
  destruct Hq as (p0 & Hq & Hc & Hst). subst q. rewrite Hq. cbn [fst snd].
  destruct (PlayerFacts.getSnapshot_reads
              (transition [SetOffset 0; SetIsReady true] (with_buffer (Some b) p0)))
    as (_ & S2 & _ & S4).
  rewrite S2, S4.
  rewrite PlayerFacts.state_transition, PlayerFacts.buffer_transition,
    PlayerFacts.context_transition. cbn. rewrite Hst.
  repeat split; try reflexivity. exact Hc.
Qed.

Lemma X21_witness :
  let q := fst (loadAudio tenSeconds initial) in
  snd (loadAudio tenSeconds initial) = None
  /\ buffer q = Some tenSecondClip
  /\ context q <> None
  /\ isReady (state q) = true
  /\ offset (state q) = 0
  /\ isPlaying (state q) = isPlaying (state initial)
  /\ s_isReady (fst (getSnapshot q)) = true
  /\ s_duration (fst (getSnapshot q)) == buf_duration tenSecondClip.
Proof.
  apply (@X21_successful_load_makes_ready tenSeconds initial tenSecondClip);
    reflexivity.
Defined.

(** X22. After [dispose()], from any state, every control is without
    effect until the next load: [play], [pause], [seek], [toggle], a
    completion signal, a frame of the time-tracking loop and a move of the
    clock all leave the disposed engine as it is, and [play] rejects with
    nothing. *)
Theorem X22_controls_do_nothing_after_dispose :
  forall p o time dt,
    play o (dispose p) = (dispose p, None)
    /\ pause (dispose p) = dispose p
    /\ seek time (dispose p) = dispose p
    /\ toggle o (dispose p) = (dispose p, None)
    /\ onended (dispose p) = dispose p
    /\ updateTime (dispose p) = dispose p
    /\ advance dt (dispose p) = dispose p.
Proof.
  intros p o time dt. rewrite PlayerFacts.dispose_eq.
  repeat split; reflexivity.
Qed.

End PlayerMore.

(* ================================================================== *)
(** * The hook and the component over the two state machines *)
(* ================================================================== *)
Module AppMore.
Import Invariants.

Lemma loadAudio_never_rejects (l : Player.Load) (p : Player.AudioPlayer) :
  snd (Player.loadAudio l p) = None.
Proof.
  unfold Player.loadAudio.
  destruct (Player.context p); [destruct (Player.suspendRejects l) |];
    try reflexivity; destruct (Player.fetched l); reflexivity.
Qed.

(** X23. The hook's [loadAudio] always ends with [isLoading] false and
    rejects with nothing, whether the load succeeded or failed: the engine's
    [loadAudio] never rejects, so the statement after the [await] is always
    reached. The engine is left as its own [loadAudio] leaves it. *)
Theorem X23_isLoading_returns_to_false :
  forall l s,
    PlayerHook.isLoading (fst (PlayerHook.loadAudio l s)) = false
    /\ snd (PlayerHook.loadAudio l s) = None
    /\ PlayerHook.player (fst (PlayerHook.loadAudio l s))
       = fst (Player.loadAudio l (PlayerHook.player s)).
Proof.
  intros l s. unfold PlayerHook.loadAudio. cbn [PlayerHook.player].
  pose proof (loadAudio_never_rejects l (PlayerHook.player s)) as H.
  destruct (Player.loadAudio l (PlayerHook.player s)) as [p e].
  cbn in H. subst e. cbn. auto.
Qed.

(** X24. What the Record button does, by the status of a reachable
    controller. When [idle] it calls [startRecording]. When [recording] it
    calls [togglePauseResume]. When [stopped] it does nothing at all: a blob
    is published, so [togglePauseResume] is called, on a recorder that is
    inactive; a new recording can only start after a reset. *)
Theorem X24_record_button_by_status :
  forall sup attempts a,
    Recorder.reachable sup (NoteAudio.recorder a) ->
    (Recorder.status (Recorder.state (NoteAudio.recorder a)) = Recorder.idle ->
     forall tr h,
       Recorder.startRecording sup attempts (NoteAudio.recorder a) = Some (tr, h) ->
       NoteAudio.recorder (NoteAudio.handleToggleRecording sup attempts a) = h)
    /\ (Recorder.status (Recorder.state (NoteAudio.recorder a)) = Recorder.recording ->
        NoteAudio.recorder (NoteAudio.handleToggleRecording sup attempts a)
        = Recorder.togglePauseResume (NoteAudio.recorder a))
    /\ (Recorder.status (Recorder.state (NoteAudio.recorder a)) = Recorder.stopped ->
        NoteAudio.handleToggleRecording sup attempts a = a).
Proof.
  intros sup attempts a Hr.
  destruct (RecorderMore.reachable_coherent Hr) as (_ & _ & _ & _ & I5 & I6).
  destruct a as [h au db ac]. cbn [NoteAudio.recorder] in *.
  unfold NoteAudio.handleToggleRecording. cbn [NoteAudio.recorder NoteAudio.audio
    NoteAudio.displayedBlob NoteAudio.audioChanges].
  split; [| split].
  - intros Hi tr h' E. destruct (I5 Hi) as (_ & Hb & _).
    rewrite Hb, Hi, E. reflexivity.
  - intros Hrec. rewrite Hrec.
    destruct (Recorder.recordingBlob (Recorder.state h)); reflexivity.
  - intros Hs. destruct (I6 Hs) as (_ & Hb & Hrec). rewrite Hs.
    destruct (Recorder.recordingBlob (Recorder.state h)) as [b|]; [| contradiction].
    unfold Recorder.togglePauseResume.
    destruct (Recorder.mediaRecorderRef h) as [r|]; [| contradiction].
    rewrite Hrec. reflexivity.
Qed.

Lemma X24_witness :
  let a := {| NoteAudio.recorder :=
                Recorder.run Recorder.allSupported Recorder.initial
                  [Recorder.CallStartRecording (fun _ => Recorder.okAttempt);
                   Recorder.OnDataAvailable (Recorder.chunk 4);
                   Recorder.CallStopRecording; Recorder.OnStop];
              NoteAudio.audio := PlayerHook.initial;
              NoteAudio.displayedBlob := None;
              NoteAudio.audioChanges := [] |} in
  NoteAudio.handleToggleRecording Recorder.allSupported
    (fun _ => Recorder.okAttempt) a = a.
Proof.
  cbv zeta.
  refine (proj2 (proj2 (@X24_record_button_by_status Recorder.allSupported
                          (fun _ => Recorder.okAttempt) _ _)) _).
  - apply RecorderMore.recorder_run_reachable.
  - reflexivity.
Defined.

(** X25. The component's play/pause button does what the engine's own
    [toggle()] does: it reads [isPlaying] from the snapshot, and the snapshot
    always agrees with the engine on it. *)
Theorem X25_play_button_is_the_engine_toggle :
  forall o a,
    PlayerHook.player (NoteAudio.audio (NoteAudio.togglePlayPause o a))
    = fst (Player.toggle o (PlayerHook.player (NoteAudio.audio a))).
Proof.
  intros o a. unfold NoteAudio.togglePlayPause, PlayerHook.snapshot, Player.toggle.
  destruct (PlayerFacts.getSnapshot_reads (PlayerHook.player (NoteAudio.audio a)))
    as (S1 & _).
  rewrite S1. cbn [NoteAudio.audio].
  destruct (Player.isPlaying (Player.state (PlayerHook.player (NoteAudio.audio a)))).
  - reflexivity.
  - unfold PlayerHook.play.
    destruct (Player.play o (PlayerHook.player (NoteAudio.audio a))). reflexivity.
Qed.

(** X26. The discard button, from any state of the component: the controller
    is idle and cleared, the engine is at its not-ready defaults, the
    displayed blob is gone and the parent was told [null] last. Pressing
    Record after it calls [startRecording], even where Record alone did
    nothing. *)
Theorem X26_discard_then_record_starts_afresh :
  forall sup attempts a,
    let a' := NoteAudio.handleReset a in
    Recorder.state (NoteAudio.recorder a') = Recorder.INITIAL_STATE
    /\ Recorder.mediaRecorderRef (NoteAudio.recorder a') = None
    /\ Recorder.chunksRef (NoteAudio.recorder a') = []
    /\ Player.stableSnapshot (PlayerHook.player (NoteAudio.audio a'))
       = Player.defaultSnapshot
    /\ Player.buffer (PlayerHook.player (NoteAudio.audio a')) = None
    /\ NoteAudio.displayedBlob a' = None
    /\ last (NoteAudio.audioChanges a') (Some (Recorder.chunk 0)) = None
    /\ forall tr h,
        Recorder.startRecording sup attempts (NoteAudio.recorder a') = Some (tr, h) ->
        NoteAudio.recorder (NoteAudio.handleToggleRecording sup attempts a') = h.
Proof.
  intros sup attempts a a'. subst a'.
  unfold NoteAudio.handleReset, NoteAudio.handleToggleRecording,
    PlayerHook.disposeAudioResources, Recorder.releaseResources.
  cbn [NoteAudio.recorder NoteAudio.audio NoteAudio.displayedBlob
       NoteAudio.audioChanges PlayerHook.player].
  rewrite RecorderFacts.reset_eq, PlayerFacts.dispose_eq. cbn.
  repeat split; try reflexivity.
  - apply last_last.
  - intros tr h E. rewrite E. reflexivity.
Qed.

(** Discarding a stopped recording, then pressing Record. *)
Lemma X26_witness :
  let a := {| NoteAudio.recorder :=
                Recorder.run Recorder.allSupported Recorder.initial
                  [Recorder.CallStartRecording (fun _ => Recorder.okAttempt);
                   Recorder.OnDataAvailable (Recorder.chunk 4);
                   Recorder.CallStopRecording; Recorder.OnStop];
              NoteAudio.audio := PlayerHook.initial;
              NoteAudio.displayedBlob := Some (Recorder.chunk 4);
              NoteAudio.audioChanges := [Some (Recorder.chunk 4)] |} in
  Recorder.status
    (Recorder.state
       (NoteAudio.recorder
          (NoteAudio.handleToggleRecording Recorder.allSupported
             (fun _ => Recorder.okAttempt) (NoteAudio.handleReset a))))
  = Recorder.recording.
Proof.
  cbv zeta.
  destruct (@X26_discard_then_record_starts_afresh Recorder.allSupported
              (fun _ => Recorder.okAttempt)
              {| NoteAudio.recorder :=
                   Recorder.run Recorder.allSupported Recorder.initial
                     [Recorder.CallStartRecording (fun _ => Recorder.okAttempt);
                      Recorder.OnDataAvailable (Recorder.chunk 4);
                      Recorder.CallStopRecording; Recorder.OnStop];
                 NoteAudio.audio := PlayerHook.initial;
                 NoteAudio.displayedBlob := Some (Recorder.chunk 4);
                 NoteAudio.audioChanges := [Some (Recorder.chunk 4)] |})
    as (_ & _ & _ & _ & _ & _ & _ & H).
  rewrite (H [Recorder.Acquire] _ eq_refl). reflexivity.
Defined.

End AppMore.

(* ================================================================== *)
(** * The service worker *)
(* ================================================================== *)
Module ServiceWorkerMore.
Import ServiceWorker.
Open Scope string_scope.

Lemma assoc_put_same {A : Type} (k : string) (v : A) (l : list (string * A)) :
  assoc k (put k v l) = Some v.
Proof.
  induction l as [| [k' v'] l IH]; cbn.
  - rewrite String.eqb_refl. reflexivity.
  - destruct (String.eqb k k') eqn:E; cbn.
    + rewrite String.eqb_refl. reflexivity.
    + rewrite E. exact IH.
Qed.

Lemma assoc_put_other {A : Type} (k k0 : string) (v : A) (l : list (string * A)) :
  k0 <> k -> assoc k0 (put k v l) = assoc k0 l.
Proof.
  intros Hne. induction l as [| [k' v'] l IH]; cbn.
  - destruct (String.eqb_spec k0 k); [contradiction | reflexivity].
  - destruct (String.eqb_spec k k') as [<- | N]; cbn.
    + destruct (String.eqb_spec k0 k); [contradiction | reflexivity].
    + destruct (String.eqb k0 k'); [reflexivity | exact IH].
Qed.


Lemma offline_answer n cs :
  offline n -> onFetch navigate n cs = (RespondWith (fst (offlineResponse cs)),
                                        snd (offlineResponse cs)).
Proof.
  intros [[e He] | [Hp [e He]]]; unfold onFetch.
  - rewrite He. destruct (offlineResponse cs). reflexivity.
  - rewrite Hp, He. destruct (offlineResponse cs). reflexivity.
Qed.

(** X27. Once the [install] listener has stored an ok response for the
    offline page, every navigation request that cannot be answered from the
    network is answered with that stored response, and answering does not
    change the cache storage. The installation touches no cache but the
    worker's own. *)
Theorem X27_installed_page_answers_offline_navigation :
  forall cs r,
    ok r = true ->
    let cs' := fst (install (inr r) cs) in
    snd (install (inr r) cs) = None
    /\ (forall n, offline n ->
                  onFetch navigate n cs' = (RespondWith (Some r), cs'))
    /\ (forall name, name <> CACHE -> assoc name cs' = assoc name cs).
Proof.
  intros cs r Hok cs'.
  assert (H : exists cache,
             install (inr r) cs = (put CACHE (put offlineFallbackPage r cache) cs, None)
             \/ install (inr r) cs
                = (put CACHE (put offlineFallbackPage r cache) (put CACHE [] cs), None)).
  { unfold install, caches_open, cache_add.
    destruct (assoc CACHE cs) as [c|]; rewrite Hok; eauto. }
  destruct H as [cache H].
  assert (Hcs : assoc CACHE cs' = Some (put offlineFallbackPage r cache)).
  { subst cs'. destruct H as [-> | ->]; cbn [fst]; apply assoc_put_same. }
  split; [destruct H as [-> | ->]; reflexivity |].
  split.
  - intros n Hn. rewrite (offline_answer cs' Hn).
    unfold offlineResponse, caches_open. rewrite Hcs. cbn [fst snd].
    unfold cache_match. rewrite assoc_put_same. reflexivity.
  - intros name Hne. subst cs'.
    destruct H as [-> | ->]; cbn [fst]; rewrite ?assoc_put_other by exact Hne;
      reflexivity.
Qed.

Lemma X27_witness :
  let page := {| ok := true; body := "You are offline" |} in
  let cs' := fst (install (inr page) []) in
  onFetch navigate
    {| preloadResponse := inr None;
       networkResponse := inl (ErrorObj "Failed to fetch") |} cs'
  = (RespondWith (Some page), cs').
Proof.
  cbv zeta.
  refine (proj1 (proj2 (@X27_installed_page_answers_offline_navigation
                          [] {| ok := true; body := "You are offline" |} eq_refl)) _ _).
  right. split; [reflexivity | eexists; reflexivity].
Defined.

(** X28. The [fetch] listener answers navigation requests only. A preload
    response, when there is one, is the answer and the network is not
    asked; otherwise the network's response is the answer. The cache is
    consulted only when the request cannot be answered from the network,
    and when the worker's cache holds no offline page the answer is then
    undefined. An installation whose fetch fails or is not ok reports the
    failure and changes no answer. *)
Theorem X28_fetch_listener_edges :
  forall n cs,
    (forall mode, mode <> navigate -> onFetch mode n cs = (NotHandled, cs))
    /\ (forall r, preloadResponse n = inr (Some r) ->
                  onFetch navigate n cs = (RespondWith (Some r), cs))
    /\ (forall r, preloadResponse n = inr None -> networkResponse n = inr r ->
                  onFetch navigate n cs = (RespondWith (Some r), cs))
    /\ (offline n -> assoc CACHE cs = None ->
        fst (onFetch navigate n cs) = RespondWith None)
    /\ (forall f,
           match f with inl _ => True | inr r => ok r = false end ->
           snd (install f cs) <> None
           /\ (offline n ->
               fst (onFetch navigate n (fst (install f cs)))
               = fst (onFetch navigate n cs))).
Proof.
  intros n cs. split; [| split; [| split; [| split]]].
  - intros mode Hm. destruct mode; try reflexivity. contradiction.
  - intros r Hp. unfold onFetch. rewrite Hp. reflexivity.
  - intros r Hp Hn. unfold onFetch. rewrite Hp, Hn. reflexivity.
  - intros Hoff Hnone. rewrite (offline_answer cs Hoff). cbn [fst].
    unfold offlineResponse, caches_open. rewrite Hnone. reflexivity.
  - intros f Hf.
    assert (H : snd (install f cs) <> None
                /\ (fst (install f cs) = cs
                    \/ (assoc CACHE cs = None /\ fst (install f cs) = put CACHE [] cs))).
    { unfold install, caches_open, cache_add.
      destruct (assoc CACHE cs) as [c|] eqn:Ec; destruct f as [e | r];
        try rewrite Hf; cbn; split; try discriminate; auto. }
    destruct H as [Herr Hcs]. split; [exact Herr |].
    intros Hoff. rewrite !(offline_answer _ Hoff). cbn [fst].
    destruct Hcs as [-> | [Hnone ->]]; [reflexivity |].
    unfold offlineResponse, caches_open. rewrite Hnone, assoc_put_same. reflexivity.
Qed.

Lemma X28_witness :
  fst (onFetch navigate
         {| preloadResponse := inl (ErrorObj "preload failed");
            networkResponse := inl (ErrorObj "Failed to fetch") |} [])
  = RespondWith None.
Proof.
  refine (proj1 (proj2 (proj2 (proj2 (@X28_fetch_listener_edges _ [])))) _ eq_refl).
  left. eexists. reflexivity.
Defined.

End ServiceWorkerMore.
